(** * SongGio crawling scripts: a shallow embedding and its properties

    The repository is a set of independent Node.js scripts.  Each one pages
    through a remote listing, accumulates the rows it receives and writes
    them to disk; some of them run a second pass that enriches every row
    with a detail request or downloads attachments.

    Embedded here, one module per script:
    - [Emoh]                   crawling_script/emohbackup.moh.gov.vn/publish/home/crawler.js
    - [DecisionCrawler]        the thutuc.dichvucong.gov.vn decision lister (class DecisionCrawler)
    - [ListTTHC]               crawling_script/dichvucong.gov.vn/.../list_tthc.js
    - [FetchDetails]           the vanban.chinhphu.vn detail fetcher (fetch_details.js)
    - [DecisionDetailCrawler]  crawling_script/thutuc.dichvucong.gov.vn/.../decision_details.js

    Modelling conventions.
    - The network is an oracle [net]: the response to a request may depend
      on the request and on how many requests the run has issued before it.
      Every request the script issues is appended to [requests].
    - A promise that rejects and a statement that throws are both [Throw];
      [await] is sequencing.  Delays ([sleep], [delay]) are not modelled.
    - JSON numbers are integers ([Z]); [NaN] is kept apart in [num].
    - Rows of the listing endpoints are flat JSON objects, field name to
      scalar ([row]); a field that is absent reads as [None] (undefined).
    - Of the console output only error reports and skip notices are kept;
      progress messages are left out.
    - The JSON result files the scripts write are the values the embedded
      [main] functions return; the directory for them is taken as writable.
      Where a function that writes is embedded with its writes
      ([saveToFile], [saveToCSV], [saveIntermediateResults], [saveResults],
      the downloads), the disk is a flat map from paths to files and
      directories: only the path written and its directory are looked at.
    - [JSON.stringify], [JSON.parse] on the text of a file, [Object.keys]
      and the members an object inherits are taken as given (section
      variables); so are the patterns that pick fields and links out of a
      page.  The statistics the scripts print are left out. *)

From Stdlib Require Import ZArith Lia Ascii.
From stdpp Require Import gmap strings list fin_maps pretty.

(** ** JavaScript values and built-ins used by the scripts *)

Module JS.

Inductive scalar :=
| SNull
| SBool (b : bool)
| SNum (n : Z)
| SStr (s : string).

#[global] Instance scalar_eq_dec : EqDecision scalar.
Proof. solve_decision. Defined.

(** A number as JavaScript computes with it: an integer or NaN. *)
Inductive num :=
| NaN
| Num (z : Z).

#[global] Instance num_eq_dec : EqDecision num.
Proof. solve_decision. Defined.

(** ToBoolean on a property read ([None] is undefined). *)
Definition truthy (v : option scalar) : bool :=
  match v with
  | None | Some SNull => false
  | Some (SBool b) => b
  | Some (SNum n) => negb (n =? 0)%Z
  | Some (SStr s) => negb (String.eqb s "")
  end.

(** ToBoolean on a number: 0 and NaN are falsy. *)
Definition truthy_num (n : num) : bool :=
  match n with
  | NaN => false
  | Num z => negb (z =? 0)%Z
  end.

(** ToString, as template literals and [parseInt] apply it. *)
Definition to_string (v : option scalar) : string :=
  match v with
  | None => "undefined"
  | Some SNull => "null"
  | Some (SBool true) => "true"
  | Some (SBool false) => "false"
  | Some (SNum n) => pretty n
  | Some (SStr s) => s
  end.

Definition is_ws (a : Ascii.ascii) : bool :=
  let n := Ascii.nat_of_ascii a in
  (n =? 32)%nat || ((9 <=? n)%nat && (n <=? 13)%nat).

Fixpoint skip_ws (s : string) : string :=
  match s with
  | String a s' => if is_ws a then skip_ws s' else s
  | EmptyString => s
  end.

Definition digit_val (radix : Z) (a : Ascii.ascii) : option Z :=
  let n := Z.of_nat (Ascii.nat_of_ascii a) in
  let d :=
    if (48 <=? n)%Z && (n <=? 57)%Z then Some (n - 48)%Z
    else if (97 <=? n)%Z && (n <=? 122)%Z then Some (n - 87)%Z
    else if (65 <=? n)%Z && (n <=? 90)%Z then Some (n - 55)%Z
    else None in
  match d with
  | Some d => if (d <? radix)%Z then Some d else None
  | None => None
  end.

(** The longest prefix of digits; [None] when there is no digit. *)
Fixpoint digits (radix : Z) (s : string) (acc : option Z) : option Z :=
  match s with
  | String a s' =>
      match digit_val radix a with
      | Some d => digits radix s' (Some (radix * default 0%Z acc + d)%Z)
      | None => acc
      end
  | EmptyString => acc
  end.

(** [parseInt(string)] without a radix argument. *)
Definition parseInt_string (s : string) : num :=
  let s := skip_ws s in
  let '(sign, s) :=
    match s with
    | String "-"%char s' => ((-1)%Z, s')
    | String "+"%char s' => (1%Z, s')
    | _ => (1%Z, s)
    end in
  let '(radix, s) :=
    match s with
    | String "0"%char (String "x"%char s') => (16%Z, s')
    | String "0"%char (String "X"%char s') => (16%Z, s')
    | _ => (10%Z, s)
    end in
  match digits radix s None with
  | Some n => Num (sign * n)
  | None => NaN
  end.

Definition parseInt (v : option scalar) : num :=
  parseInt_string (to_string v).

(** [Math.ceil(a / b)] for a positive integer [b]. *)
Definition ceil_div (a : Z) (b : positive) : Z :=
  (- ((- a) / Z.pos b))%Z.

Definition Math_ceil_div (a : num) (b : positive) : num :=
  match a with
  | NaN => NaN
  | Num z => Num (ceil_div z b)
  end.

(** The values [i] takes in [for (i = from; i <= to; i++)]. *)
Definition range_incl (from : Z) (to : num) : list Z :=
  match to with
  | NaN => []
  | Num t => seqZ from (t - from + 1)
  end.

(** [xs.slice(0, e)]: a negative [e] counts from the end. *)
Definition slice0 {A} (xs : list A) (e : Z) : list A :=
  if (e <? 0)%Z then take (Z.to_nat (Z.of_nat (length xs) + e)) xs
  else take (Z.to_nat e) xs.

Definition indexOf (xs : list string) (x : string) : option nat :=
  fst <$> list_find (λ y, y = x) xs.

(** *** [Map]: entries in insertion order *)

Section Map.
Context {K V : Type} `{EqDecision K}.

(** [m.set(k, v)]: an existing key keeps its place and takes the new
    value; a new key goes last.  Keys are compared by SameValueZero,
    which on scalars is equality. *)
Fixpoint Map_set (m : list (K * V)) (k : K) (v : V) : list (K * V) :=
  match m with
  | [] => [(k, v)]
  | (k', v') :: m' =>
      if decide (k' = k) then (k', v) :: m'
      else (k', v') :: Map_set m' k v
  end.

(** [new Map(entries)] *)
Definition Map_new (entries : list (K * V)) : list (K * V) :=
  foldl (λ m e, Map_set m e.1 e.2) [] entries.

(** [m.values()], collected by [Array.from] *)
Definition Map_values (m : list (K * V)) : list V := m.*2.

Definition Map_keys (m : list (K * V)) : list K := m.*1.
End Map.

(** *** Strings and paths *)

Definition QUOTE : Ascii.ascii := Ascii.ascii_of_nat 34.
Definition COMMA : Ascii.ascii := ","%char.



Definition is_slash (a : Ascii.ascii) : bool := Ascii.eqb a "/".

Fixpoint drop_slashes (l : list Ascii.ascii) : list Ascii.ascii :=
  match l with
  | a :: l' => if is_slash a then drop_slashes l' else l
  | [] => []
  end.

Fixpoint drop_segment (l : list Ascii.ascii) : list Ascii.ascii :=
  match l with
  | a :: l' => if is_slash a then l else drop_segment l'
  | [] => []
  end.

(** [path.dirname(p)], POSIX flavour: trailing slashes and the last
    segment go, with the slash before it; "." when no directory is
    named. *)
Definition dirname (p : string) : string :=
  match p with
  | EmptyString => "."
  | String c0 rest =>
      match drop_segment (drop_slashes (rev (String.list_ascii_of_string rest))) with
      | [] => if is_slash c0 then "/" else "."
      | _ :: before =>
          if is_slash c0 && bool_decide (before = []) then "//"
          else String c0 (String.string_of_list_ascii (rev before))
      end
  end.

End JS.

(** ** The world the scripts run in: network, console, disk *)

Module Runtime.
Import JS.

(** A flat JSON object. *)
Abbreviation row := (gmap string scalar).

(** [obj.k = v] where [v] may be undefined. *)
Definition set_field (k : string) (v : option scalar) (o : row) : row :=
  match v with
  | Some x => <[k := x]> o
  | None => delete k o
  end.

(** Rows of the emohbackup search endpoint: a document and the
    attachments listed with it. *)
Record attachment := Attachment {
  attachId : option scalar;
  fileName : string
}.

Record doc := Doc {
  documentId : option scalar;
  attachments : option (list attachment);
  doc_fields : row
}.

(** The JSON payloads the scripts tell apart. *)
Inductive json :=
| JNull
| JRows (rows : list row)
    (* an array of flat objects *)
| JSearch (lstResult : option (list doc)) (nTotal : option Z)
    (* { data: { lstResult: [...], nTotal: n } }, either field may be missing *)
| JOther.
    (* any other value: a number, a string, an object without [data] *)

Inductive parse :=
| SyntaxError (msg : string)
| Parsed (j : json).

Record Response := {
  status : Z;
  text : string;       (* the body as received *)
  parsed : parse       (* what JSON.parse makes of it *)
}.

Inductive response :=
| NetworkError (msg : string)
| Http (res : Response).

Inductive request :=
| GET (url : string)
| POST (url : string) (params : list (string * scalar)).

Inductive node :=
| Dir
| File (content : string).

Record world := World {
  net : nat → request → response;
  requests : list request;
  console : list string;
  disk : gmap string node
}.

Inductive result (A : Type) :=
| Return (a : A)
| Throw (e : string).
Arguments Return {A} a.
Arguments Throw {A} e.

Definition M (A : Type) : Type := world → result A * world.

#[global] Instance M_ret : MRet M := λ A a w, (Return a, w).

#[global] Instance M_bind : MBind M := λ A B f m w,
  match m w with
  | (Return a, w') => f a w'
  | (Throw e, w') => (Throw e, w')
  end.

Definition throw {A} (e : string) : M A := λ w, (Throw e, w).

(** [try { m } catch (err) { h err.message }] *)
Definition try_catch {A} (m : M A) (h : string → M A) : M A := λ w,
  match m w with
  | (Return a, w') => (Return a, w')
  | (Throw e, w') => h e w'
  end.

(** The world after one more request, and after one more console line. *)
Definition sent (r : request) (w : world) : world :=
  World (net w) (requests w ++ [r]) (console w) (disk w).

Definition logged (s : string) (w : world) : world :=
  World (net w) (requests w) (console w ++ [s]) (disk w).

(** One request on the wire. *)
Definition send (r : request) : M response := λ w,
  (Return (net w (length (requests w)) r), sent r w).

Definition console_log (s : string) : M unit := λ w,
  (Return (), logged s w).

Definition console_error := console_log.

(** [await fetch(...)]: rejects only when no response arrives. *)
Definition fetch (r : request) : M Response :=
  resp ← send r;
  match resp with
  | NetworkError msg => throw msg
  | Http res => mret res
  end.

(** [response.ok] *)
Definition ok (res : Response) : bool :=
  (200 <=? status res)%Z && (status res <=? 299)%Z.

(** [await response.json()] *)
Definition res_json (res : Response) : M json :=
  match parsed res with
  | SyntaxError msg => throw msg
  | Parsed j => mret j
  end.

Definition existsSync (p : string) : M bool := λ w,
  (Return (bool_decide (is_Some (disk w !! p))), w).

(** [fs.mkdirSync(p, { recursive: true })]: nothing to do when the
    directory is there, EEXIST when a file has the name. *)
Definition mkdirSync (p : string) : M unit := λ w,
  match disk w !! p with
  | Some (File _) => (Throw ("EEXIST: file already exists, mkdir '" +:+ p +:+ "'"), w)
  | _ => (Return (), World (net w) (requests w) (console w) (<[p := Dir]> (disk w)))
  end.

(** [fs.writeFileSync(p, data)] *)
Definition writeFileSync (p : string) (data : string) : M unit := λ w,
  match disk w !! p with
  | Some Dir => (Throw ("EISDIR: illegal operation on a directory, open '" +:+ p +:+ "'"), w)
  | _ => (Return (), World (net w) (requests w) (console w) (<[p := File data]> (disk w)))
  end.

(** [fs.unlink(p, () => {})]: errors are dropped by the empty callback. *)
Definition unlink (p : string) : M unit := λ w,
  match disk w !! p with
  | Some (File _) => (Return (), World (net w) (requests w) (console w) (delete p (disk w)))
  | _ => (Return (), w)
  end.

(** [path.join(a, b)] on paths that need no normalisation. *)
Definition path_join (a b : string) : string := a +:+ "/" +:+ b.

(** Loops with [break]: the body says whether the loop goes on. *)
Inductive flow :=
| Next
| Break.

Fixpoint for_of {A S} (xs : list A) (body : A → S → M (flow * S)) (s : S) : M S :=
  match xs with
  | [] => mret s
  | x :: xs' =>
      r ← body x s;
      match r.1 with
      | Next => for_of xs' body r.2
      | Break => mret r.2
      end
  end.

(** The values [i] takes in [for (i = from; i < to; i++)]. *)
Definition range_excl (from to : Z) : list Z := seqZ from (to - from).

(** [fs.readFileSync(p, 'utf-8')] *)
Definition readFileSync (p : string) : M string := λ w,
  match disk w !! p with
  | Some (File content) => (Return content, w)
  | Some Dir => (Throw "EISDIR: illegal operation on a directory, read", w)
  | None => (Throw ("ENOENT: no such file or directory, open '" +:+ p +:+ "'"), w)
  end.

End Runtime.

(** ** crawler.js (emohbackup.moh.gov.vn) *)

Module Emoh.
Import JS Runtime.

Definition BASE_URL : string := "https://emohbackup.moh.gov.vn/publish/doc/search".
Definition ATTACH_URL : string := "https://emohbackup.moh.gov.vn/publish/attach/getfile".
Definition OUTPUT_ROOT : string := "result/emohbackup.moh.gov.vn/publish/home".

(** What [fetchPage] hands back: [{ docs, nTotal }]. *)
Record Page := {
  docs : list doc;
  nTotal : Z
}.

Definition page_url (page size : Z) : string :=
  BASE_URL +:+ "?page=" +:+ pretty page +:+ "&size=" +:+ pretty size
    +:+ "&typeId=0&deptId=0&term=&isLaw=false&sortField=-PUBLISH_DATE&year=0&signerId=0&startPublishDate=&endPublishDate=".

(** A request to the search endpoint, as opposed to an attachment download. *)
Definition is_page_request (r : request) : bool :=
  match r with
  | GET url => String.prefix (BASE_URL +:+ "?") url
  | POST _ _ => false
  end.

Definition page_fetches (w : world) : list request :=
  filter (λ r, is_page_request r = true) (requests w).

(** [data.data?.lstResult] and [data.data?.nTotal]; reading [data] off
    [null] throws a TypeError. *)
Definition data_data (data : json) : M (option (list doc) * option Z) :=
  match data with
  | JNull => throw "Cannot read properties of null (reading 'data')"
  | JSearch l n => mret (l, n)
  | JRows _ | JOther => mret (None, None)
  end.

Definition fetchPage (page size : Z) : M Page :=
  try_catch
    (res ← fetch (GET (page_url page size));
     (if ok res then mret () else throw ("HTTP " +:+ pretty (status res)));;
     data ← res_json res;
     d ← data_data data;
     mret {| docs := default [] d.1; nTotal := default 0%Z d.2 |})
    (λ err,
       console_error ("Error fetching page " +:+ pretty page +:+ ": " +:+ err);;
       mret {| docs := []; nTotal := 0 |}).

Definition folderPath (documentId : option scalar) : string :=
  path_join (path_join OUTPUT_ROOT "attachments") ("documentId=" +:+ to_string documentId).

Definition filePath (att : attachment) (documentId : option scalar) : string :=
  path_join (folderPath documentId) (fileName att).

Definition downloadAttachment (att : attachment) (documentId : option scalar) : M unit :=
  let url := ATTACH_URL +:+ "/" +:+ to_string (attachId att) in
  try_catch
    (mkdirSync (folderPath documentId);;
     cached ← existsSync (filePath att documentId);
     if (cached : bool) then
       console_log ("Already downloaded: " +:+ fileName att
                      +:+ " (doc " +:+ to_string documentId +:+ ")")
     else
       res ← fetch (GET url);
       (if ok res then mret () else throw ("HTTP " +:+ pretty (status res)));;
       writeFileSync (filePath att documentId) (text res);;
       console_log ("Downloaded: " +:+ fileName att +:+ " → " +:+ folderPath documentId))
    (λ err,
       console_error ("Failed to download " +:+ fileName att
                        +:+ " (doc " +:+ to_string documentId +:+ "): " +:+ err)).

(** The body of the first loop of [main]. *)
Definition crawl_page (pageSize : positive) (p : Z) (allDocs : list doc)
  : M (flow * list doc) :=
  pg ← fetchPage p (Z.pos pageSize);
  mret (Next, allDocs ++ docs pg).

(** The first loop of [main]: pages 1 .. totalPages - 1 after page 0. *)
Definition crawl_pages (pageSize : positive) (totalPages : Z) (allDocs : list doc)
  : M (list doc) :=
  for_of (range_excl 1 totalPages) (crawl_page pageSize) allDocs.

(** [for (const att of doc.attachments) await downloadAttachment(att, doc.documentId)],
    when [doc.attachments] is there. *)
Definition download_doc (d : doc) (_ : unit) : M (flow * unit) :=
  match attachments d with
  | Some atts =>
      for_of atts
        (λ att _, downloadAttachment att (documentId d);; mret (Next, ()))
        ();;
      mret (Next, ())
  | None => mret (Next, ())
  end.

(** The body of the second loop of [main]. *)
Definition download_page (pageSize : positive) (p : Z) (_ : unit) : M (flow * unit) :=
  pg ← fetchPage p (Z.pos pageSize);
  for_of (docs pg) download_doc ();;
  mret (Next, ()).

(** The second loop of [main]: every page is requested again and the
    attachments of its documents are downloaded. *)
Definition download_pages (pageSize : positive) (totalPages : Z) : M unit :=
  for_of (range_excl 0 totalPages) (download_page pageSize) ().

(** [main], with [pageSize] (50 in the script) as a parameter; the value
    is [allDocs] as written to document_raw_result.json. *)
Definition main (pageSize : positive) : M (list doc) :=
  firstPage ← fetchPage 0 (Z.pos pageSize);
  let totalPages := ceil_div (nTotal firstPage) pageSize in
  allDocs ← crawl_pages pageSize totalPages (docs firstPage);
  download_pages pageSize totalPages;;
  console_log "Download complete.";;
  mret allDocs.

End Emoh.

(** ** class DecisionCrawler (thutuc.dichvucong.gov.vn, list of decisions) *)

Module DecisionCrawler.
Import JS Runtime.

Record t := {
  baseUrl : string;
  recordsPerPage : positive;
  allDecisions : list row
}.

(** [constructor()], with the page size (50 in the script) as a parameter *)
Definition new (recordsPerPage : positive) : t :=
  {| baseUrl := "https://thutuc.dichvucong.gov.vn/jsp/rest.jsp";
     recordsPerPage := recordsPerPage;
     allDecisions := [] |}.

Definition push (this : t) (rows : list row) : t :=
  {| baseUrl := baseUrl this;
     recordsPerPage := recordsPerPage this;
     allDecisions := allDecisions this ++ rows |}.

Definition params (this : t) (pageIndex : Z) : list (string * scalar) :=
  [ ("service", SStr "decision_publishment_advanced_search_service_v2");
    ("provider", SStr "dvcquocgia");
    ("type", SStr "ref");
    ("recordPerPage", SNum (Z.pos (recordsPerPage this)));
    ("pageIndex", SNum pageIndex);
    ("keyword", SStr "");
    ("agency_id", SStr "-1");
    ("field_id", SStr "-1");
    ("publishing_date", SStr "") ].

Definition fetchPage (this : t) (pageIndex : Z) : M json :=
  try_catch
    (response ← fetch (POST (baseUrl this) (params this pageIndex));
     (if ok response then mret ()
      else throw ("HTTP error! status: " +:+ pretty (status response)));;
     data ← res_json response;
     mret data)
    (λ error,
       console_error ("Error fetching page " +:+ pretty pageIndex +:+ ": " +:+ error);;
       throw error).

Definition calculateTotalPages (this : t) (totalRecords : num) : num :=
  Math_ceil_div totalRecords (recordsPerPage this).

(** The body of the loop of [crawlAll]. *)
Definition crawl_page (page : Z) (this : t) : M (flow * t) :=
  try_catch
    (pageData ← fetchPage this page;
     match pageData with
     | JRows (r :: rows) => mret (Next, push this (r :: rows))
     | _ => mret (Next, this)
     end)
    (λ error,
       console_error ("Failed to fetch page " +:+ pretty page +:+ ": " +:+ error);;
       mret (Next, this)).

(** The loop of [crawlAll] over pages 2 .. totalPages. *)
Definition crawl_rest (totalPages : num) (this : t) : M t :=
  for_of (range_incl 2 totalPages) crawl_page this.

(** [crawlAll]: the array it returns and the crawler afterwards. *)
Definition crawlAll (this : t) : M (list row * t) :=
  firstPage ← fetchPage this 1;
  match firstPage with
  | JRows (r0 :: rows) =>
      let this := push this (r0 :: rows) in
      let totalRecords := parseInt (r0 !! "AMOUNT") in
      let totalPages := calculateTotalPages this totalRecords in
      this ← crawl_rest totalPages this;
      mret (allDecisions this, this)
  | _ =>
      console_log "No data found.";;
      mret ([], this)
  end.

(** *** Writing the collection *)

Section CSV.
(** [Object.keys(o)]: the order in which the engine enumerates the keys
    of an object is taken as given. *)
Variable Object_keys : row → list string.
(** What [String(o[name])] is for a name that [o] does not hold itself
    but inherits (constructor, toString, ...). *)
Variable inherited : string → option string.




End CSV.

Section Output.
(** [JSON.stringify(rows, null, 2)] is taken as given. *)
Variable JSON_stringify : list row → string.
(** [printStats] only writes to the console; its lines are taken as given. *)
Variable printStats_lines : list row → list string.

(** [path.join(__dirname, '..', 'result', ...)], as seen from the
    directory above the script's. *)
Definition RESULT_DIR : string :=
  "result/thutuc.dichvucong.gov.vn/p/home/dvc-tthc-quyet-dinh-cong-bo".

(** [saveToFile(outputPath)] *)
Definition saveToFile (this : t) (outputPath : string) : M unit :=
  let dir := dirname outputPath in
  there ← existsSync dir;
  (if (there : bool) then mret () else mkdirSync dir);;
  writeFileSync outputPath (JSON_stringify (allDecisions this)).

Definition printStats (this : t) : M unit :=
  for_of (printStats_lines (allDecisions this))
    (λ line _, console_log line;; mret (Next, ())) ().

(** [main]; [Throw] is the path that ends in [process.exit(1)]. *)
Definition main : M unit :=
  try_catch
    (r ← crawlAll (new 50);
     saveToFile r.2 (path_join RESULT_DIR "raw_result.json");;
     printStats r.2)
    (λ error,
       console_error ("Crawling failed: " +:+ error);;
       throw error).
End Output.

End DecisionCrawler.

(** ** list_tthc.js (dichvucong.gov.vn, list of procedures) *)

Module ListTTHC.
Import JS Runtime.

Section Script.
(** [process.argv.slice(2)] *)
Variable args : list string.
(** [PAGE_SIZE]: 1000 in the script, 10 "for testing" *)
Variable PAGE_SIZE : positive.

(** [limitIndex !== -1 ? parseInt(args[limitIndex + 1]) : null] *)
Definition limit : option num :=
  match indexOf args "--limit" with
  | Some limitIndex => Some (parseInt (SStr <$> args !! S limitIndex))
  | None => None
  end.

(** [limit] where the script uses it as a condition: null, NaN and 0
    all count as no limit. *)
Definition limit_given : option Z :=
  match limit with
  | Some (Num z) => if (z =? 0)%Z then None else Some z
  | _ => None
  end.

Definition isDoanhNghiep : bool := bool_decide ("--doanhnghiep" ∈ args).

Definition OBJECT_TYPE : Z := if isDoanhNghiep then 5 else 1.

Definition params (pageIndex : Z) : list (string * scalar) :=
  [ ("service", SStr "get_ds_tthc_da_cong_bo_dvc_service");
    ("type", SStr "ref");
    ("provider", SStr "dvcquocgiaRead");
    ("pKeyWord", SStr "");
    ("pCoQuanId", SNum (-1));
    ("pObjectType", SNum OBJECT_TYPE);
    ("pMucDo", SNum (-1));
    ("p_Page_Size", SNum (Z.pos PAGE_SIZE));
    ("p_Page_Index", SNum pageIndex) ].

(** [fetchTTHC]: resolves with the parsed body on status 200, rejects
    otherwise; nothing is caught here. *)
Definition fetchTTHC (pageIndex : Z) : M json :=
  resp ← send (POST "https://dichvucong.gov.vn/jsp/rest.jsp" (params pageIndex));
  match resp with
  | NetworkError msg => throw msg
  | Http res =>
      if (status res =? 200)%Z then
        match parsed res with
        | Parsed j => mret j
        | SyntaxError msg =>
            console_log ("  Parse error. Raw data: " +:+ String.substring 0 500 (text res));;
            throw ("JSON parse error: " +:+ msg)
        end
      else
        console_log ("  HTTP error " +:+ pretty (status res) +:+ ". Body: "
                       +:+ String.substring 0 500 (text res));;
        throw ("HTTP " +:+ pretty (status res))
  end.

(** [limit && allTTHC.length >= limit] *)
Definition limit_reached (allTTHC : list row) : bool :=
  match limit_given with
  | Some l => (l <=? Z.of_nat (length allTTHC))%Z
  | None => false
  end.

(** The body of the loop over the remaining pages. *)
Definition fetch_next (pageIndex : Z) (allTTHC : list row) : M (flow * list row) :=
  try_catch
    (pageData ← fetchTTHC pageIndex;
     match pageData with
     | JRows (r :: rows) =>
         let allTTHC := allTTHC ++ r :: rows in
         if limit_reached allTTHC then mret (Break, allTTHC)
         else mret (Next, allTTHC)
     | _ =>
         console_log ("  ✗ No data on page " +:+ pretty pageIndex);;
         mret (Break, allTTHC)
     end)
    (λ err,
       console_log ("  ✗ Error on page " +:+ pretty pageIndex +:+ ": " +:+ err);;
       mret (Next, allTTHC)).

(** The loop over pages 2 .. maxPages. *)
Definition fetch_remaining (maxPages : num) (allTTHC : list row) : M (list row) :=
  for_of (range_incl 2 maxPages) fetch_next allTTHC.

(** [Math.ceil(maxRecords / PAGE_SIZE)] with
    [maxRecords = limit || totalRecords] *)
Definition maxPages (totalRecords : num) : num :=
  Math_ceil_div
    match limit_given with
    | Some l => Num l
    | None => totalRecords
    end
    PAGE_SIZE.

(** [parseInt(firstPage[0].TOTAL_RECORDS || 0)] *)
Definition totalRecords (r0 : row) : num :=
  parseInt (if truthy (r0 !! "TOTAL_RECORDS") then r0 !! "TOTAL_RECORDS"
            else Some (SNum 0)).

(** "Remove duplicates based on TTHC_MA":
    [Array.from(new Map(allTTHC.map(item => [item.TTHC_MA, item])).values())] *)
Definition uniqueTTHC (allTTHC : list row) : list row :=
  Map_values (Map_new (map (λ item, (item !! "TTHC_MA", item)) allTTHC)).

(** [limit ? uniqueTTHC.slice(0, limit) : uniqueTTHC] *)
Definition finalResult (unique : list row) : list row :=
  match limit_given with
  | Some l => slice0 unique l
  | None => unique
  end.

(** [main]: [Some finalResult] is the array written to the result
    file, [None] the early return without writing; [Throw] is the
    fatal path that ends in [process.exit(1)]. *)
Definition main : M (option (list row)) :=
  try_catch
    (firstPage ← fetchTTHC 1;
     match firstPage with
     | JRows (r0 :: rows) =>
         allTTHC ← fetch_remaining (maxPages (totalRecords r0)) (r0 :: rows);
         mret (Some (finalResult (uniqueTTHC allTTHC)))
     | _ =>
         console_log "No data returned from API";;
         mret None
     end)
    (λ err,
       console_error ("Fatal error: " +:+ err);;
       throw err).
End Script.

End ListTTHC.

(** ** fetch_details.js (vanban.chinhphu.vn, details and attachments) *)

Module FetchDetails.
Import JS Runtime.

Definition DOWNLOAD_BASE_DIR : string := "result/vanban.chinhphu.vn/attachments".

(** An entry of [detail.ATTACHMENTS]. *)
Record file_link := {
  url : string;
  label : string;
  filename : string
}.

(** An entry of [detailedResults]: its scalar fields and, when
    [parseDetailHTML] built it, its [ATTACHMENTS]. *)
Record detail := {
  fields : row;
  ATTACHMENTS : option (list file_link)
}.

Record summary := {
  detailedResults : list detail;
  successCount : nat;
  failCount : nat;
  downloadedCount : nat;
  failedCount : nat
}.

Definition detail_url (PAGE_ID DOC_ID : option scalar) : string :=
  "https://vanban.chinhphu.vn/?pageid=" +:+ to_string PAGE_ID
    +:+ "&docid=" +:+ to_string DOC_ID.

Fixpoint has_slash (s : string) : bool :=
  match s with
  | EmptyString => false
  | String a s' => Ascii.eqb a "/"%char || has_slash s'
  end.

(** [url.split('/').pop()]: what follows the last slash. *)
Fixpoint last_segment (s : string) : string :=
  match s with
  | EmptyString => EmptyString
  | String a s' =>
      if has_slash s' then last_segment s'
      else if Ascii.eqb a "/"%char then s' else s
  end.

Section Script.
Variable args : list string.

(** The regular expressions of [parseDetailHTML] are taken as given:
    [extract f html] is the text the pattern of field [f] captures in
    [html], tags removed and trimmed, and [rp_files html] the trimmed
    (href, link text) pairs the attachment pattern matches, in order. *)
Variable extract : string → string → option string.
Variable rp_files : string → list (string * string).

Definition shouldDownload : bool := bool_decide ("--download" ∈ args).

Definition limit_given : option Z :=
  match indexOf args "--limit" with
  | Some limitIndex =>
      match parseInt (SStr <$> args !! S limitIndex) with
      | Num z => if (z =? 0)%Z then None else Some z
      | NaN => None
      end
  | None => None
  end.

(** [fetchHTML] *)
Definition fetchHTML (url : string) : M string :=
  resp ← send (GET url);
  match resp with
  | NetworkError msg => throw msg
  | Http res =>
      if (status res =? 200)%Z then mret (text res)
      else throw ("HTTP " +:+ pretty (status res) +:+ ": " +:+ url)
  end.

(** [fs.createWriteStream(p)]: the file is created or emptied; the
    value is the error the stream emits, if any. *)
Definition createWriteStream (p : string) : M (option string) := λ w,
  match disk w !! p with
  | Some Dir =>
      (Return (Some ("EISDIR: illegal operation on a directory, open '" +:+ p +:+ "'")), w)
  | _ =>
      (Return None, World (net w) (requests w) (console w) (<[p := File ""]> (disk w)))
  end.

(** [downloadFile]: the request goes out whatever the stream does. *)
Definition downloadFile (url destPath : string) : M unit :=
  opened ← createWriteStream destPath;
  resp ← send (GET url);
  match opened with
  | Some err => unlink destPath;; throw err
  | None =>
      match resp with
      | NetworkError msg => unlink destPath;; throw msg
      | Http res =>
          if (status res =? 200)%Z then writeFileSync destPath (text res)
          else
            unlink destPath;;
            throw ("HTTP " +:+ pretty (status res) +:+ ": " +:+ url)
      end
  end.

Definition detail_fields : list string :=
  ["TITLE"; "CODE"; "ISSUE_DATE"; "EFFECTIVE_DATE"; "DOCUMENT_TYPE";
   "ISSUING_AGENCY"; "SIGNER"; "SUMMARY"].

Definition parseDetailHTML (html : string) (pageId docId : option scalar) : detail :=
  let detail0 : row :=
    <["DETAIL_URL" := SStr (detail_url pageId docId)]>
      (set_field "DOC_ID" docId (set_field "PAGE_ID" pageId ∅)) in
  let detail1 :=
    foldl (λ d f, match extract f html with
                  | Some v => <[f := SStr v]> d
                  | None => d
                  end) detail0 detail_fields in
  let attachments :=
    map (λ m : string * string,
           {| url := if String.prefix "http" m.1 then m.1
                     else "https://datafiles.chinhphu.vn" +:+ m.1;
              label := m.2;
              filename := if String.eqb (last_segment m.1) "" then m.2
                          else last_segment m.1 |})
        (rp_files html) in
  {| fields := detail1; ATTACHMENTS := Some attachments |}.

(** The placeholder pushed for a document whose fetch failed. *)
Definition placeholder (PAGE_ID DOC_ID : option scalar) (err : string) : detail :=
  {| fields :=
       <["ERROR" := SStr err]>
         (<["DETAIL_URL" := SStr (detail_url PAGE_ID DOC_ID)]>
            (set_field "DOC_ID" DOC_ID (set_field "PAGE_ID" PAGE_ID ∅)));
     ATTACHMENTS := None |}.

(** The body of the loop of phase 1; the state is [detailedResults],
    [successCount], [failCount]. *)
Definition fetch_detail (doc : row) (st : list detail * nat * nat)
    : M (flow * (list detail * nat * nat)) :=
  let '(detailedResults, successCount, failCount) := st in
  let PAGE_ID := doc !! "PAGE_ID" in
  let DOC_ID := doc !! "DOC_ID" in
  let url := detail_url PAGE_ID DOC_ID in
  try_catch
    (html ← fetchHTML url;
     let detailData := parseDetailHTML html PAGE_ID DOC_ID in
     mret (Next, (detailedResults ++ [detailData], S successCount, failCount)))
    (λ err,
       console_log ("  ✗ Failed: " +:+ err);;
       mret (Next, (detailedResults ++ [placeholder PAGE_ID DOC_ID err],
                    successCount, S failCount))).

(** Phase 1: one detail request per document. *)
Definition phase1 (documentsToProcess : list row) : M (list detail * nat * nat) :=
  for_of documentsToProcess fetch_detail ([], 0, 0).

(** The download loop over the attachments of one document. *)
Definition download_attachments (docDir : string) (atts : list file_link)
    (counts : nat * nat) : M (nat * nat) :=
  for_of atts
    (λ attachment '(downloadedCount, failedCount),
       let destPath := path_join docDir (filename attachment) in
       try_catch
         (downloadFile (url attachment) destPath;;
          mret (Next, (S downloadedCount, failedCount)))
         (λ err,
            console_log ("    ✗ Failed: " +:+ err);;
            mret (Next, (downloadedCount, S failedCount))))
    counts.

(** Phase 2: the download loop of [main]. *)
Definition phase2 (detailedResults : list detail) : M (nat * nat) :=
  for_of detailedResults
    (λ doc counts,
       match ATTACHMENTS doc with
       | Some (a :: atts) =>
           let docDir :=
             path_join DOWNLOAD_BASE_DIR
               ("pageid=" +:+ to_string (fields doc !! "PAGE_ID")
                  +:+ "&docid=" +:+ to_string (fields doc !! "DOC_ID")) in
           there ← existsSync docDir;
           (if (there : bool) then mret () else mkdirSync docDir);;
           counts ← download_attachments docDir (a :: atts) counts;
           mret (Next, counts)
       | _ => mret (Next, counts)
       end)
    (0, 0).

(** [main] on the rows read from raw_result.json. *)
Definition main (rawResults : list row) : M summary :=
  let documentsToProcess :=
    match limit_given with
    | Some l => slice0 rawResults l
    | None => rawResults
    end in
  p1 ← phase1 documentsToProcess;
  counts ← (if shouldDownload then phase2 p1.1.1 else mret (0, 0));
  mret {| detailedResults := p1.1.1;
          successCount := p1.1.2;
          failCount := p1.2;
          downloadedCount := counts.1;
          failedCount := counts.2 |}.
End Script.

End FetchDetails.

(** ** decision_details.js (thutuc.dichvucong.gov.vn, details of decisions) *)

Module DecisionDetailCrawler.
Import JS Runtime.

(** The members [fetchDecisionDetails] adds to a decision. *)
Record enrichment := {
  AGENCY_DETAILS : option row;
  FIELDS : list row;
  ATTACHMENTS : list row;
  PROCEDURES_NEW : list row;
  PROCEDURES_MODIFIED : list row;
  PROCEDURES_RESCINDED : list row
}.

(** The [STATISTICS] member: new, modified, rescinded, all procedures,
    attachments. *)
Definition STATISTICS (e : enrichment) : nat * nat * nat * nat * nat :=
  (length (PROCEDURES_NEW e), length (PROCEDURES_MODIFIED e),
   length (PROCEDURES_RESCINDED e),
   length (PROCEDURES_NEW e) + length (PROCEDURES_MODIFIED e)
     + length (PROCEDURES_RESCINDED e),
   length (ATTACHMENTS e)).

(** An entry of [detailedDecisions]: the scalar members and, when the
    details were assembled, the nested ones. *)
Record detailed := {
  own : row;
  extra : option enrichment
}.

Record t := {
  baseUrl : string;
  recordsPerPage : positive;
  agencyMap : list (option scalar * row);
  fieldMap : list (option scalar * row);
  detailedDecisions : list detailed
}.

(** [constructor()], with the page size (50 in the script) as a parameter *)
Definition new (recordsPerPage : positive) : t :=
  {| baseUrl := "https://thutuc.dichvucong.gov.vn/jsp/rest.jsp";
     recordsPerPage := recordsPerPage;
     agencyMap := [];
     fieldMap := [];
     detailedDecisions := [] |}.

Definition push (this : t) (results : list detailed) : t :=
  {| baseUrl := baseUrl this;
     recordsPerPage := recordsPerPage this;
     agencyMap := agencyMap this;
     fieldMap := fieldMap this;
     detailedDecisions := detailedDecisions this ++ results |}.

(** [map.get(k)] *)
Definition Map_get {V} (m : list (option scalar * V)) (k : option scalar) : option V :=
  (λ p : nat * (option scalar * V), p.2.2) <$> list_find (λ e, e.1 = k) m.

(** The names of the nested members, which shadow scalar members of
    the same name coming from the decision. *)
Definition nested_keys : list string :=
  ["AGENCY_DETAILS"; "FIELDS"; "ATTACHMENTS"; "PROCEDURES"; "STATISTICS"].

(** [id: parseInt(decisionId)] as JSON.stringify writes it. *)
Definition id_param (decisionId : option scalar) : scalar :=
  match parseInt decisionId with
  | Num z => SNum z
  | NaN => SNull
  end.

Definition detail_page (decisionId : option scalar) : string :=
  "https://thutuc.dichvucong.gov.vn/p/home/dvc-tthc-quyet-dinh-cong-bo-chi-tiet.html?ma_quyet_dinh="
    +:+ to_string decisionId.

Section Script.
(** [extractAttachments]: the entries built from the attachment list
    embedded in the page, [[]] when there is none or it does not parse. *)
Variable extractAttachments : string → list row.

Definition fetchDecisionFields (this : t) (decisionId : option scalar) : M json :=
  try_catch
    (response ← fetch (POST (baseUrl this)
                         [ ("service", SStr "get_fields_by_dp_id_services_v2");
                           ("provider", SStr "dvcquocgia");
                           ("type", SStr "ref");
                           ("id", id_param decisionId) ]);
     res_json response)
    (λ error,
       console_error ("Error fetching fields for decision "
                        +:+ to_string decisionId +:+ ": " +:+ error);;
       mret (JRows [])).

Definition fetchDecisionHTMLDetails (decisionId : option scalar) : M (list row) :=
  try_catch
    (response ← fetch (GET (detail_page decisionId));
     mret (extractAttachments (text response)))
    (λ error,
       console_error ("Error fetching HTML details for decision "
                        +:+ to_string decisionId +:+ ": " +:+ error);;
       mret []).

(** [fetchNewProcedures], [fetchModifiedProcedures] and
    [fetchRescindedProcedures] differ in the service they name and in
    the word they log. *)
Definition fetchProcedures (service kind : string) (this : t)
    (decisionId : option scalar) (pageIndex : Z) : M json :=
  try_catch
    (response ← fetch (POST (baseUrl this)
                         [ ("service", SStr service);
                           ("provider", SStr "dvcquocgia");
                           ("type", SStr "ref");
                           ("id", id_param decisionId);
                           ("recordPerPage", SNum (Z.pos (recordsPerPage this)));
                           ("pageIndex", SNum pageIndex) ]);
     res_json response)
    (λ error,
       console_error ("Error fetching " +:+ kind +:+ " procedures for decision "
                        +:+ to_string decisionId +:+ ": " +:+ error);;
       mret (JRows [])).

Definition fetchNewProcedures :=
  fetchProcedures "get_procedures_by_dp_id_service_v2" "new".
Definition fetchModifiedProcedures :=
  fetchProcedures "get_modified_procedures_by_dp_id_service_v2" "modified".
Definition fetchRescindedProcedures :=
  fetchProcedures "get_rescinded_procedures_by_dp_id_service_v2" "rescinded".

(** [pageIndex >= totalPages]; false against NaN. *)
Definition reached (pageIndex : Z) (totalPages : num) : bool :=
  match totalPages with
  | NaN => false
  | Num t => (t <=? pageIndex)%Z
  end.

(** [fetchAllProcedures]: the [while (true)] loop, from [pageIndex]
    on.  [fuel] bounds the number of iterations; [None] says the loop
    was still running when it ran out. *)
Fixpoint fetchAllProcedures_from (fuel : nat) (this : t)
    (fetchFunction : Z → M json) (pageIndex : Z) (allProcedures : list row)
    : M (option (list row)) :=
  match fuel with
  | O => mret None
  | S fuel' =>
      procedures ← fetchFunction pageIndex;
      match procedures with
      | JRows (r :: rows) =>
          let allProcedures := allProcedures ++ r :: rows in
          let amount :=
            if truthy (r !! "AMOUNT") then r !! "AMOUNT" else Some (SNum 0) in
          let totalPages := Math_ceil_div (parseInt amount) (recordsPerPage this) in
          if reached pageIndex totalPages then mret (Some allProcedures)
          else fetchAllProcedures_from fuel' this fetchFunction (pageIndex + 1)
                 allProcedures
      | _ => mret (Some allProcedures)
      end
  end.

Definition fetchAllProcedures (fuel : nat) (this : t)
    (fetchFunction : Z → M json) : M (option (list row)) :=
  fetchAllProcedures_from fuel this fetchFunction 1 [].

(** [fields.map(field => ({ ...field, FIELD_FULL_NAME: ... }))];
    a TypeError when [fields] is not an array. *)
Definition matchedFields (this : t) (fields : json) : M (list row) :=
  match fields with
  | JRows rows =>
      mret (map (λ field : row,
                   let fieldData := Map_get (fieldMap this) (field !! "ID") in
                   let name :=
                     if truthy (fieldData ≫= (λ fd : row, fd !! "FIELD_NAME"))
                     then fieldData ≫= (λ fd : row, fd !! "FIELD_NAME")
                     else field !! "NAME" in
                   set_field "FIELD_FULL_NAME" name field)
                rows)
  | JNull => throw "Cannot read properties of null (reading 'map')"
  | JSearch _ _ | JOther => throw "fields.map is not a function"
  end.

(** [{ ...decision, ERROR: error.message }] *)
Definition failed (decision : row) (message : string) : detailed :=
  {| own := <["ERROR" := SStr message]> decision; extra := None |}.

(** [fetchDecisionDetails].  The five requests of [Promise.all] are
    taken in the order of the array.  [None]: a pagination loop ran
    out of fuel. *)
Definition fetchDecisionDetails (fuel : nat) (this : t) (decision : row)
    : M (option detailed) :=
  let decisionId := decision !! "ID" in
  try_catch
    (fields ← fetchDecisionFields this decisionId;
     newProcedures ← fetchAllProcedures fuel this (fetchNewProcedures this decisionId);
     modifiedProcedures ←
       fetchAllProcedures fuel this (fetchModifiedProcedures this decisionId);
     rescindedProcedures ←
       fetchAllProcedures fuel this (fetchRescindedProcedures this decisionId);
     htmlDetails ← fetchDecisionHTMLDetails decisionId;
     match newProcedures, modifiedProcedures, rescindedProcedures with
     | Some new, Some modified, Some rescinded =>
         let agencyData := Map_get (agencyMap this) (decision !! "AGENCY_ID") in
         matched ← matchedFields this fields;
         mret (Some
           {| own := <["DETAIL_URL" := SStr (detail_page decisionId)]>
                       (foldr delete decision nested_keys);
              extra := Some {| AGENCY_DETAILS := agencyData;
                               FIELDS := matched;
                               ATTACHMENTS := htmlDetails;
                               PROCEDURES_NEW := new;
                               PROCEDURES_MODIFIED := modified;
                               PROCEDURES_RESCINDED := rescinded |} |})
     | _, _, _ => mret None
     end)
    (λ error,
       console_error ("Error fetching details for decision "
                        +:+ to_string decisionId +:+ ": " +:+ error);;
       mret (Some (failed decision error))).

(** [Promise.all(batch.map(decision => this.fetchDecisionDetails(decision)))] *)
Fixpoint fetch_batch (fuel : nat) (this : t) (batch : list row)
    : M (option (list detailed)) :=
  match batch with
  | [] => mret (Some [])
  | decision :: batch' =>
      r ← fetchDecisionDetails fuel this decision;
      rs ← fetch_batch fuel this batch';
      mret (r' ← r; rs' ← rs; Some (r' :: rs'))
  end.

(** The slices [decisionsToProcess.slice(i, i + batchSize)] for
    i = 0, batchSize, 2 * batchSize, ... *)
Fixpoint batches_go {A} (n : nat) (batchSize : positive) (l : list A) : list (list A) :=
  match n, l with
  | S n', _ :: _ =>
      take (Pos.to_nat batchSize) l :: batches_go n' batchSize (drop (Pos.to_nat batchSize) l)
  | _, _ => []
  end.

Definition batches {A} (batchSize : positive) (l : list A) : list (list A) :=
  batches_go (length l) batchSize l.

(** The batch loop of [crawlAllDetails], after the reference tables
    are loaded. *)
Fixpoint crawl_batches (fuel : nat) (bs : list (list row)) (this : t) : M (option t) :=
  match bs with
  | [] => mret (Some this)
  | batch :: bs' =>
      batchResults ← fetch_batch fuel this batch;
      match batchResults with
      | Some results => crawl_batches fuel bs' (push this results)
      | None => mret None
      end
  end.

(** [crawlAllDetails(decisions, { limit, startIndex, batchSize })]
    on a crawler whose [agencyMap] and [fieldMap] are loaded. *)
Definition crawlAllDetails (fuel : nat) (this : t) (decisions : list row)
    (limit : option positive) (startIndex : nat) (batchSize : positive)
    : M (option (list detailed * t)) :=
  let decisionsToProcess :=
    match limit with
    | Some l => take (Pos.to_nat l) (drop startIndex decisions)
    | None => drop startIndex decisions
    end in
  this ← crawl_batches fuel (batches batchSize decisionsToProcess) this;
  mret ((λ this : t, (detailedDecisions this, this)) <$> this).
End Script.

(** *** The reference tables *)

(** Where the reference tables are cached. *)
Definition EXAMPLE_DIR : string :=
  "example/thutuc.dichvucong.gov.vn/p/home/dvc-tthc-quyet-dinh-cong-bo".
Definition agencyPath : string :=
  path_join EXAMPLE_DIR "get_list_agency_service_v2.json".
Definition fieldPath : string :=
  path_join EXAMPLE_DIR "procedure_get_list_field_service_v2.json".

Definition with_agencyMap (this : t) (m : list (option scalar * row)) : t :=
  {| baseUrl := baseUrl this;
     recordsPerPage := recordsPerPage this;
     agencyMap := m;
     fieldMap := fieldMap this;
     detailedDecisions := detailedDecisions this |}.

Definition with_fieldMap (this : t) (m : list (option scalar * row)) : t :=
  {| baseUrl := baseUrl this;
     recordsPerPage := recordsPerPage this;
     agencyMap := agencyMap this;
     fieldMap := m;
     detailedDecisions := detailedDecisions this |}.

(** [items.forEach(item => map.set(item.ID, item))]; a TypeError when
    [items] is not an array. *)
Definition set_all (name : string) (m : list (option scalar * row)) (items : json)
    : M (list (option scalar * row)) :=
  match items with
  | JRows rows => mret (foldl (λ m item, Map_set m (item !! "ID") item) m rows)
  | JNull => throw "Cannot read properties of null (reading 'forEach')"
  | JSearch _ _ | JOther => throw (name +:+ ".forEach is not a function")
  end.

(** [fetchAgencies] and [fetchFields] differ in the service they name;
    neither looks at the status nor catches anything. *)
Definition fetchReference (service : string) (this : t) : M json :=
  response ← fetch (POST (baseUrl this)
                      [ ("service", SStr service);
                        ("provider", SStr "dvcquocgia");
                        ("type", SStr "ref") ]);
  res_json response.

Definition fetchAgencies := fetchReference "get_list_agency_service_v2".
Definition fetchFields := fetchReference "procedure_get_list_field_service_v2".

Section Cache.
(** [JSON.parse] on the text of a file is taken as given. *)
Variable JSON_parse : string → parse.

(** [JSON.parse(fs.readFileSync(p, 'utf-8'))] *)
Definition read_json (p : string) : M json :=
  content ← readFileSync p;
  match JSON_parse content with
  | Parsed j => mret j
  | SyntaxError msg => throw msg
  end.

Definition loadAgencies (this : t) : M t :=
  cached ← existsSync agencyPath;
  if (cached : bool) then
    agencies ← read_json agencyPath;
    m ← set_all "agencies" (agencyMap this) agencies;
    mret (with_agencyMap this m)
  else
    agencies ← fetchAgencies this;
    m ← set_all "agencies" (agencyMap this) agencies;
    mret (with_agencyMap this m).

Definition loadFields (this : t) : M t :=
  cached ← existsSync fieldPath;
  if (cached : bool) then
    fields ← read_json fieldPath;
    m ← set_all "fields" (fieldMap this) fields;
    mret (with_fieldMap this m)
  else
    fields ← fetchFields this;
    m ← set_all "fields" (fieldMap this) fields;
    mret (with_fieldMap this m).

(** [crawlAllDetails] from its first statement: the reference tables
    are loaded, then the batches are processed. *)
Definition crawlAllDetails_full (extractAttachments : string → list row)
    (fuel : nat) (this : t) (decisions : list row)
    (limit : option positive) (startIndex : nat) (batchSize : positive)
    : M (option (list detailed * t)) :=
  this ← loadAgencies this;
  this ← loadFields this;
  crawlAllDetails extractAttachments fuel this decisions limit startIndex batchSize.
End Cache.

(** *** Saving the entries *)

Section Saving.
Variable extractAttachments : string → list row.
Variable JSON_parse : string → parse.
(** [JSON.stringify(this.detailedDecisions, null, 2)] is taken as given. *)
Variable JSON_stringify : list detailed → string.

(** [path.join(__dirname, '..', ..., 'result', ...)], as seen from the
    root of the repository. *)
Definition RESULT_DIR : string :=
  "result/thutuc.dichvucong.gov.vn/p/home/dvc-tthc-quyet-dinh-cong-bo".
Definition TEMP_NAME : string := "detailed_decisions_temp.json".





End Saving.

End DecisionDetailCrawler.

(** ** Vocabulary of the specification *)

Module Spec.
Import JS Runtime.

Section Keys.
Context {K A : Type} `{EqDecision K} (key : A → K).

(** The distinct keys of a list, each at the place where it occurs first. *)
Fixpoint first_occurrences (ks : list K) : list K :=
  match ks with
  | [] => []
  | k :: ks' => k :: filter (λ k', k' ≠ k) (first_occurrences ks')
  end.

(** The records with key [k], in the order of the list. *)
Definition with_key (k : K) (l : list A) : list A :=
  filter (λ r, key r = k) l.

(** The last-seen record with key [k]. *)
Definition last_with_key (k : K) (l : list A) : option A :=
  last (with_key k l).
End Keys.

(** The natural key of list_tthc.js. *)
Definition TTHC_MA (item : row) : option scalar := item !! "TTHC_MA".

(** What a page request comes to: the parsed payload, or the cause of
    the failure (no response, a status that [accept] refuses, a body
    that does not parse).  [http_error] words the refused status. *)
Definition outcome (accept : Response → bool) (http_error : Response → string)
    (parse_error : string → string) (resp : response) : result json :=
  match resp with
  | NetworkError msg => Throw msg
  | Http res =>
      if accept res then
        match parsed res with
        | Parsed j => Return j
        | SyntaxError msg => Throw (parse_error msg)
        end
      else Throw (http_error res)
  end.

(** The response the network holds for the [i]-th request after [w]. *)
Definition response_at (w : world) (i : nat) (r : request) : response :=
  net w (length (requests w) + i) r.

(** The page requests of the three listers. *)
Definition decision_page : response → result json :=
  outcome ok (λ res, "HTTP error! status: " +:+ pretty (status res)) id.

Definition emoh_page : response → result json :=
  outcome ok (λ res, "HTTP " +:+ pretty (status res)) id.

Definition tthc_page : response → result json :=
  outcome (λ res, (status res =? 200)%Z) (λ res, "HTTP " +:+ pretty (status res))
    (λ msg, "JSON parse error: " +:+ msg).

(** The request [DecisionCrawler.fetchPage] sends for a page. *)
Definition decision_request (this : DecisionCrawler.t) (pageIndex : Z) : request :=
  POST (DecisionCrawler.baseUrl this) (DecisionCrawler.params this pageIndex).

(** The request [Emoh.fetchPage] sends for a page. *)
Definition emoh_request (pageSize : positive) (page : Z) : request :=
  GET (Emoh.page_url page (Z.pos pageSize)).

(** The page [Emoh.fetchPage] makes of a response: the empty page with
    total 0 unless the payload has the expected shape. *)
Definition emoh_served (resp : response) : Emoh.Page :=
  match emoh_page resp with
  | Return (JSearch lstResult nTotal) =>
      {| Emoh.docs := default [] lstResult; Emoh.nTotal := default 0%Z nTotal |}
  | _ => {| Emoh.docs := []; Emoh.nTotal := 0 |}
  end.

(** The documents of the pages [pages] as served, the first of them
    being the [i]-th request after [w]. *)
Fixpoint emoh_gathered (w : world) (pageSize : positive) (i : nat) (pages : list Z)
    : list doc :=
  match pages with
  | [] => []
  | p :: pages' =>
      Emoh.docs (emoh_served (response_at w i (emoh_request pageSize p)))
        ++ emoh_gathered w pageSize (S i) pages'
  end.

(** From [w] to [w'] the run has sent the search requests [ps], in this
    order, and possibly attachment requests in between. *)
Definition issues_pages (w w' : world) (ps : list request) : Prop :=
  net w' = net w ∧ Emoh.page_fetches w' = Emoh.page_fetches w ++ ps.

(** The detail request of fetch_details.js for a raw row, what it comes
    to, and the entry phase 1 makes of it. *)
Definition vanban_request (doc : row) : request :=
  GET (FetchDetails.detail_url (doc !! "PAGE_ID") (doc !! "DOC_ID")).

Definition vanban_page (doc : row) (resp : response) : result string :=
  match resp with
  | NetworkError msg => Throw msg
  | Http res =>
      if (status res =? 200)%Z then Return (text res)
      else Throw ("HTTP " +:+ pretty (status res) +:+ ": "
                    +:+ FetchDetails.detail_url (doc !! "PAGE_ID") (doc !! "DOC_ID"))
  end.

Definition vanban_detail (extract : string → string → option string)
    (rp_files : string → list (string * string)) (doc : row) (o : result string)
    : FetchDetails.detail :=
  match o with
  | Return html =>
      FetchDetails.parseDetailHTML extract rp_files html (doc !! "PAGE_ID") (doc !! "DOC_ID")
  | Throw err => FetchDetails.placeholder (doc !! "PAGE_ID") (doc !! "DOC_ID") err
  end.

(** The entries phase 1 makes of the rows [docs], the request for the
    first of them being the [i]-th after [w]. *)
Fixpoint vanban_details (extract : string → string → option string)
    (rp_files : string → list (string * string)) (w : world) (i : nat)
    (docs : list row) : list FetchDetails.detail :=
  match docs with
  | [] => []
  | doc :: docs' =>
      vanban_detail extract rp_files doc
        (vanban_page doc (response_at w i (vanban_request doc)))
        :: vanban_details extract rp_files w (S i) docs'
  end.

(** The number of pages a payload announces to [fetchAllProcedures]:
    none beyond itself when it holds no rows, otherwise what the AMOUNT
    of its first row comes to; [None] when that is NaN and the loop asks
    for the next page regardless. *)
Definition announced_pages (P : positive) (j : json) : option Z :=
  match j with
  | JRows (r :: _) =>
      match Math_ceil_div
              (parseInt (if truthy (r !! "AMOUNT") then r !! "AMOUNT" else Some (SNum 0)))
              P with
      | Num t => Some t
      | NaN => None
      end
  | _ => Some 0%Z
  end.




(** The request [fetchTTHC] sends for a page. *)
Definition tthc_request (args : list string) (PAGE_SIZE : positive) (pageIndex : Z)
    : request :=
  POST "https://dichvucong.gov.vn/jsp/rest.jsp" (ListTTHC.params args PAGE_SIZE pageIndex).

(** The rows a fetched page contributes to the collection. *)
Definition page_rows (o : result json) : list row :=
  match o with
  | Return (JRows rows) => rows
  | _ => []
  end.

(** The rows of the pages [pages], requested one after the other with
    the first of them the [i]-th request after [w]: what the network
    serves for each, nothing for a page that fails or holds no array. *)
Fixpoint gathered (w : world) (oc : response → result json) (req : Z → request)
    (i : nat) (pages : list Z) : list row :=
  match pages with
  | [] => []
  | p :: pages' =>
      page_rows (oc (response_at w i (req p))) ++ gathered w oc req (S i) pages'
  end.

(** From [w] to [w'] the run has sent the requests [rs], in this order. *)
Definition issues (w w' : world) (rs : list request) : Prop :=
  net w' = net w ∧ requests w' = requests w ++ rs.



(** Where decision_details.js keeps its intermediate results. *)
Definition tempPath : string :=
  path_join DecisionDetailCrawler.RESULT_DIR DecisionDetailCrawler.TEMP_NAME.


(** Two disks that differ at most in the temporary file and the result
    directory. *)
Definition same_elsewhere (d d' : gmap string node) : Prop :=
  ∀ p, p ≠ tempPath → p ≠ DecisionDetailCrawler.RESULT_DIR → d' !! p = d !! p.

(** [limit ? decisions.slice(startIndex, startIndex + limit)
           : decisions.slice(startIndex)] *)
Definition decisionsToProcess (limit : option positive) (startIndex : nat)
    (decisions : list row) : list row :=
  match limit with
  | Some l => take (Pos.to_nat l) (drop startIndex decisions)
  | None => drop startIndex decisions
  end.



(** fetch_details.js: the rows [main] processes, the attachments phase 2
    goes through (those of every entry that has any, in order), and the
    entries that stand for a failed detail request. *)
Definition documentsToProcess (args : list string) (rawResults : list row) : list row :=
  match FetchDetails.limit_given args with
  | Some l => slice0 rawResults l
  | None => rawResults
  end.


Definition failures (detailedResults : list FetchDetails.detail) : list FetchDetails.detail :=
  filter (λ d, is_Some (FetchDetails.fields d !! "ERROR")) detailedResults.

(** No request gets a response. *)
Definition unreachable (w : world) : Prop :=
  ∀ i rq, ∃ msg, net w i rq = NetworkError msg.

(** Every request is answered with rows whose first one carries an
    AMOUNT that does not read as a number. *)
Definition unreadable_amounts (P : positive) (w : world) : Prop :=
  ∀ i rq, ∃ res r rows,
    net w i rq = Http res
    ∧ parsed res = Parsed (JRows (r :: rows))
    ∧ announced_pages P (JRows (r :: rows)) = None.

(** The requests of decision_details.js: a page of a procedure listing,
    the fields of a decision, a reference table. *)
Definition procedures_request (service : string) (this : DecisionDetailCrawler.t)
    (decisionId : option scalar) (pageIndex : Z) : request :=
  POST (DecisionDetailCrawler.baseUrl this)
    [ ("service", SStr service);
      ("provider", SStr "dvcquocgia");
      ("type", SStr "ref");
      ("id", DecisionDetailCrawler.id_param decisionId);
      ("recordPerPage", SNum (Z.pos (DecisionDetailCrawler.recordsPerPage this)));
      ("pageIndex", SNum pageIndex) ].

Definition fields_request (this : DecisionDetailCrawler.t) (decisionId : option scalar)
    : request :=
  POST (DecisionDetailCrawler.baseUrl this)
    [ ("service", SStr "get_fields_by_dp_id_services_v2");
      ("provider", SStr "dvcquocgia");
      ("type", SStr "ref");
      ("id", DecisionDetailCrawler.id_param decisionId) ].

Definition reference_request (service : string) (this : DecisionDetailCrawler.t) : request :=
  POST (DecisionDetailCrawler.baseUrl this)
    [ ("service", SStr service); ("provider", SStr "dvcquocgia"); ("type", SStr "ref") ].

(** What the request for a reference table comes to: the status is not
    looked at. *)
Definition reference_page : response → result json :=
  outcome (λ _, true) (λ _, "") id.

(** The key of the reference tables. *)
Definition ID (item : row) : option scalar := item !! "ID".

(** Reading a line of CSV: a comma outside quotes ends a cell; every
    quote opens or closes a quoted stretch.  The cells are kept as
    written. *)
Definition extend (a : Ascii.ascii) (cells : list string) : list string :=
  match cells with
  | [] => [String a ""]
  | c :: cs => String a c :: cs
  end.


Fixpoint cells_from (quoted : bool) (line : string) : list string :=
  match line with
  | EmptyString => [EmptyString]
  | String a line' =>
      if Ascii.eqb a QUOTE then extend a (cells_from (negb quoted) line')
      else if Ascii.eqb a COMMA && negb quoted then EmptyString :: cells_from false line'
      else extend a (cells_from quoted line')
  end.

Definition cells (line : string) : list string := cells_from false line.

End Spec.

(** ** Sample runs *)

Module Samples.
Import JS Runtime.

(** A response with status 200 and a body that parses to [j]. *)
Definition http200 (j : json) : response :=
  Http {| status := 200; text := ""; parsed := Parsed j |}.

Definition start (net : nat → request → response) : world := World net [] [] ∅.

(** No request gets through. *)
Definition offline : world := start (λ _ _, NetworkError "ECONNRESET").

(** [n] decisions, each reporting 120 in all. *)
Definition decisions (n : nat) : list row :=
  replicate n {[ "AMOUNT" := SStr "120" ]}.



(** An emohbackup source that reports 120 documents and lists none. *)
Definition emoh_120_empty : world :=
  start (λ _ _, http200 (JSearch (Some []) (Some 120%Z))).

Definition tthc (ma name : string) : row :=
  {[ "TTHC_MA" := SStr ma; "NAME" := SStr name; "TOTAL_RECORDS" := SNum 3000 ]}.

(** A procedure source of 3000 rows; the request for page 2 fails, and
    a procedure of page 1 comes again, renamed, on page 3. *)
Definition tthc_page2_down : world :=
  start (λ i _, match i with
                | 0 => http200 (JRows [tthc "1.000001" "a"; tthc "1.000002" "b"])
                | 1 => NetworkError "ETIMEDOUT"
                | _ => http200 (JRows [tthc "1.000001" "c"; tthc "1.000003" "d"])
                end%nat).








(** A raw vanban.chinhphu.vn row with a field besides its identifiers. *)
Definition raw_doc : row :=
  {[ "PAGE_ID" := SNum 1; "DOC_ID" := SNum 2; "TITLE" := SStr "Decree 15" ]}.

(** A decision as the decision lister stores it. *)
Definition decision : row :=
  {[ "ID" := SStr "115010"; "CODE" := SStr "QD-115010"; "AGENCY_ID" := SStr "7" ]}.


(** A procedure source that announces 3000 rows and serves one, then
    empty pages. *)
Definition tthc_dry : world :=
  start (λ i _, match i with
                | 0 => http200 (JRows [tthc "1.000001" "a"])
                | _ => http200 (JRows [])
                end%nat).

(** A source whose every page holds one procedure with an AMOUNT that
    is not a number. *)
Definition amounts_na : world :=
  start (λ _ _, http200 (JRows [{[ "AMOUNT" := SStr "n/a" ]}])).

Definition agency (id : Z) (name : string) : row :=
  {[ "ID" := SNum id; "NAME" := SStr name ]}.

(** The agency table is cached, and the network is down. *)
Definition agencies_cached : world :=
  World (λ _ _, NetworkError "ECONNRESET") [] []
    {[ DecisionDetailCrawler.agencyPath := File "agencies" ]}.



End Samples.

(** * Properties *)

(** ** [Map] and deduplication by key *)

Section MapFacts.
Import JS Spec.
Context {K V : Type} `{EqDecision K}.
Implicit Types (m es : list (K * V)) (k : K) (v : V).

Lemma Map_new_snoc es k v :
  Map_new (es ++ [(k, v)]) = Map_set (Map_new es) k v.
Proof. unfold Map_new. by rewrite foldl_app. Qed.

Lemma Map_set_fresh m k v :
  k ∉ m.*1 → Map_set m k v = m ++ [(k, v)].
Proof.
  induction m as [|[k' v'] m IH]; simpl; [done|].
  rewrite not_elem_of_cons. intros [Hne Hnin].
  destruct (decide (k' = k)); [congruence|]. by rewrite IH.
Qed.

Lemma Map_set_keys_old m k v :
  k ∈ m.*1 → (Map_set m k v).*1 = m.*1.
Proof.
  induction m as [|[k' v'] m IH]; simpl.
  - by intros ?%elem_of_nil.
  - rewrite elem_of_cons. intros Hin.
    destruct (decide (k' = k)); [done|].
    rewrite !fmap_cons. f_equal. apply IH.
    destruct Hin; [congruence|done].
Qed.

Lemma Map_set_elem_of m k v k' v' :
  NoDup m.*1 →
  (k', v') ∈ Map_set m k v ↔ (k' = k ∧ v' = v) ∨ (k' ≠ k ∧ (k', v') ∈ m).
Proof.
  induction m as [|[k0 v0] m IH]; simpl; intros Hnd.
  - rewrite list_elem_of_singleton. split.
    + intros [= -> ->]. by left.
    + intros [[-> ->]|[_ ?%elem_of_nil]]; done.
  - apply NoDup_cons in Hnd as [Hk0 Hnd].
    destruct (decide (k0 = k)) as [->|Hne].
    + rewrite !elem_of_cons. split.
      * intros [[= -> ->]|Hin]; [by left|].
        right. split; [|by right]. intros ->. apply Hk0.
        apply list_elem_of_fmap. by exists (k, v').
      * intros [[-> ->]|[Hne Hin]]; [by left|].
        destruct Hin as [[= ? ?]|Hin]; [congruence|by right].
    + rewrite !elem_of_cons, IH by done. split.
      * intros [[= -> ->]|[?|[? ?]]]; [|by left|].
        -- right. split; [done|by left].
        -- right. split; [done|by right].
      * intros [?|[? [[= -> ->]|?]]]; [by right; left|by left|].
        right. by right.
Qed.

Lemma first_occurrences_elem_of (ks : list K) k :
  k ∈ first_occurrences ks ↔ k ∈ ks.
Proof.
  induction ks as [|k0 ks IH]; simpl; [done|].
  rewrite !elem_of_cons, list_elem_of_filter, IH.
  destruct (decide (k = k0)); tauto.
Qed.

Lemma first_occurrences_NoDup (ks : list K) : NoDup (first_occurrences ks).
Proof.
  induction ks as [|k0 ks IH]; simpl; [constructor|].
  apply NoDup_cons. split.
  - rewrite list_elem_of_filter. tauto.
  - by apply NoDup_filter.
Qed.

Lemma first_occurrences_snoc (ks : list K) k :
  first_occurrences (ks ++ [k]) =
    if decide (k ∈ ks) then first_occurrences ks else first_occurrences ks ++ [k].
Proof.
  induction ks as [|k0 ks IH]; simpl; [done|].
  rewrite IH. destruct (decide (k ∈ ks)) as [Hin|Hnin].
  - rewrite decide_True by (by right). done.
  - rewrite filter_app. simpl. destruct (decide (k = k0)) as [->|Hne].
    + rewrite decide_True by (by left).
      rewrite filter_cons_False by naive_solver. simpl. by rewrite app_nil_r.
    + rewrite decide_False by (rewrite elem_of_cons; naive_solver).
      by rewrite filter_cons_True by done.
Qed.

(** The keys of a [Map] come in the order of their first insertion. *)
Lemma Map_new_keys es : (Map_new es).*1 = first_occurrences es.*1.
Proof.
  induction es as [|[k v] es IH] using rev_ind; [done|].
  rewrite Map_new_snoc, fmap_app.
  change ([(k, v)].*1) with [k]. rewrite first_occurrences_snoc.
  destruct (decide (k ∈ es.*1)) as [Hin|Hnin].
  - rewrite Map_set_keys_old; [done|]. rewrite IH.
    by apply first_occurrences_elem_of.
  - rewrite Map_set_fresh, fmap_app, IH; [done|].
    rewrite IH. by rewrite first_occurrences_elem_of.
Qed.

Lemma Map_new_NoDup es : NoDup (Map_new es).*1.
Proof. rewrite Map_new_keys. apply first_occurrences_NoDup. Qed.

(** The value under a key is the one of its last insertion. *)
Lemma Map_new_elem_of es k v :
  (k, v) ∈ Map_new es ↔ last (filter (λ e, e.1 = k) es) = Some (k, v).
Proof.
  revert k v. induction es as [|[k0 v0] es IH] using rev_ind; intros k v.
  - simpl. split; [by intros ?%elem_of_nil|done].
  - rewrite Map_new_snoc, Map_set_elem_of by apply Map_new_NoDup.
    rewrite filter_app. destruct (decide (k0 = k)) as [->|Hne].
    + rewrite filter_cons_True by done. rewrite filter_nil, last_snoc.
      split; [intros [[_ ->]|[? _]]; done|]. intros [= ->]. by left.
    + rewrite filter_cons_False by done. rewrite filter_nil, app_nil_r, IH.
      split; [intros [[-> _]|[_ ?]]; done|]. intros Hl. right.
      split; [congruence|done].
Qed.

(** A list of entries with distinct keys is its own [Map]. *)
Lemma Map_new_distinct es : NoDup es.*1 → Map_new es = es.
Proof.
  induction es as [|[k v] es IH] using rev_ind; [done|].
  rewrite fmap_app. simpl. intros [Hnd [Hdisj _]]%NoDup_app.
  rewrite Map_new_snoc, IH by done. apply Map_set_fresh.
  intros Hin. apply (Hdisj _ Hin). by left.
Qed.
End MapFacts.

Section DedupFacts.
Import JS Spec.
Context {K A : Type} `{EqDecision K} (key : A → K).
Implicit Types (l : list A) (k : K) (r : A).

(** [items.map(item => [key(item), item])] *)
Local Abbreviation entries l := ((λ item, (key item, item)) <$> l).
(** [Array.from(new Map(...).values())] *)
Local Abbreviation dedup l := (Map_values (Map_new (entries l))).

Lemma entries_filter l k :
  filter (λ e : K * A, e.1 = k) (entries l) = entries (with_key key k l).
Proof.
  unfold with_key. induction l as [|x l IH]; [done|].
  rewrite fmap_cons. destruct (decide (key x = k)) as [Hk|Hk].
  - rewrite !filter_cons_True by done. by rewrite fmap_cons, IH.
  - by rewrite !filter_cons_False by done.
Qed.

Lemma Map_new_entries_elem_of l k r :
  (k, r) ∈ Map_new (entries l) ↔ k = key r ∧ last_with_key key k l = Some r.
Proof.
  rewrite Map_new_elem_of, entries_filter, fmap_last.
  unfold last_with_key. destruct (last (with_key key k l)) as [x|] eqn:Hl; simpl.
  - split.
    + intros [= Hk ->]. split; [|done].
      apply last_Some_elem_of, list_elem_of_filter in Hl. by destruct Hl.
    + intros [-> [= ->]]. done.
  - split; [done|]. by intros [_ ?].
Qed.

Lemma Map_new_entries_values l :
  entries (dedup l) = Map_new (entries l).
Proof.
  unfold Map_values.
  assert (Forall (λ e : K * A, e.1 = key e.2) (Map_new (entries l))) as Hinv.
  { apply Forall_forall. intros [k r] Hin.
    by apply Map_new_entries_elem_of in Hin as [-> _]. }
  induction Hinv as [|[k r] m Hk _ IH]; [done|].
  rewrite !fmap_cons, IH. simpl in *. by rewrite Hk.
Qed.

Lemma dedup_keys l : key <$> dedup l = first_occurrences (key <$> l).
Proof.
  transitivity ((entries (dedup l)).*1).
  - by rewrite <-list_fmap_compose.
  - rewrite Map_new_entries_values, Map_new_keys. f_equal.
    by rewrite <-list_fmap_compose.
Qed.

Lemma dedup_elem_of l r : r ∈ dedup l ↔ last_with_key key (key r) l = Some r.
Proof.
  unfold Map_values. rewrite list_elem_of_fmap. split.
  - intros [[k x] [-> Hin]]. apply Map_new_entries_elem_of in Hin as [-> Hl].
    done.
  - intros Hl. exists (key r, r). split; [done|].
    by apply Map_new_entries_elem_of.
Qed.

Lemma dedup_subset l r : r ∈ dedup l → r ∈ l.
Proof.
  rewrite dedup_elem_of. intros Hl%last_Some_elem_of.
  by apply list_elem_of_filter in Hl as [_ ?].
Qed.

Lemma with_key_absent l k : k ∉ key <$> l → with_key key k l = [].
Proof.
  unfold with_key. induction l as [|x l IH]; [done|].
  rewrite fmap_cons, not_elem_of_cons. intros [Hk Hnin].
  rewrite filter_cons_False by congruence. by apply IH.
Qed.

Lemma with_key_distinct l r :
  NoDup (key <$> l) → r ∈ l → with_key key (key r) l = [r].
Proof.
  unfold with_key. induction l as [|x l IH]; [by intros _ ?%elem_of_nil|].
  rewrite fmap_cons, NoDup_cons, elem_of_cons. intros [Hx Hnd] [->|Hin].
  - rewrite filter_cons_True by done. f_equal.
    by apply with_key_absent.
  - rewrite filter_cons_False; [by apply IH|].
    intros Hk. apply Hx. rewrite Hk. by apply list_elem_of_fmap_2.
Qed.

Lemma dedup_with_key l k :
  k ∈ key <$> l →
  ∃ r, last_with_key key k l = Some r ∧ with_key key k (dedup l) = [r].
Proof.
  intros [x [-> Hx]]%list_elem_of_fmap.
  destruct (last_with_key key (key x) l) as [r|] eqn:Hl.
  - exists r. split; [done|].
    assert (key r = key x) as Hk.
    { apply last_Some_elem_of, list_elem_of_filter in Hl. by destruct Hl. }
    rewrite <-Hk. apply with_key_distinct.
    + rewrite dedup_keys. apply first_occurrences_NoDup.
    + apply dedup_elem_of. by rewrite Hk.
  - apply last_None in Hl. exfalso.
    assert (x ∈ with_key key (key x) l) as Hin by (by apply list_elem_of_filter).
    rewrite Hl in Hin. by apply elem_of_nil in Hin.
Qed.

Lemma dedup_idempotent l : dedup (dedup l) = dedup l.
Proof.
  rewrite Map_new_entries_values.
  by rewrite Map_new_distinct by apply Map_new_NoDup.
Qed.
End DedupFacts.

(** C5.  The deduplication of list_tthc.js keeps, for every value of
    TTHC_MA that occurs in the accumulated rows, exactly one row, and that
    row is the last one fetched with that value; no two rows of the result
    share a TTHC_MA and every row of the result is one of the input. *)
Theorem C5_dedup_keeps_last_seen (allTTHC : list Runtime.row) :
  NoDup (Spec.TTHC_MA <$> ListTTHC.uniqueTTHC allTTHC)
  ∧ (∀ k, k ∈ Spec.TTHC_MA <$> allTTHC →
       ∃ r, Spec.last_with_key Spec.TTHC_MA k allTTHC = Some r
            ∧ Spec.with_key Spec.TTHC_MA k (ListTTHC.uniqueTTHC allTTHC) = [r])
  ∧ (∀ r, r ∈ ListTTHC.uniqueTTHC allTTHC → r ∈ allTTHC).
Proof.
  unfold ListTTHC.uniqueTTHC. split; [|split].
  - rewrite (dedup_keys Spec.TTHC_MA). apply first_occurrences_NoDup.
  - apply (dedup_with_key Spec.TTHC_MA).
  - apply (dedup_subset Spec.TTHC_MA).
Qed.

(** C5, witness: procedure 1.000001 comes twice; the row kept for it is
    the later one. *)
Lemma C5_dedup_keeps_last_seen_witness :
  let allTTHC := [Samples.tthc "1.000001" "a"; Samples.tthc "1.000002" "b";
                  Samples.tthc "1.000001" "c"] in
  Spec.with_key Spec.TTHC_MA (Some (JS.SStr "1.000001")) (ListTTHC.uniqueTTHC allTTHC)
    = [Samples.tthc "1.000001" "c"]
  ∧ Samples.tthc "1.000001" "c" ∈ allTTHC.
Proof.
  intros allTTHC.
  destruct (C5_dedup_keeps_last_seen allTTHC) as (_ & Hkey & Hsub).
  destruct (Hkey (Some (JS.SStr "1.000001"))) as (r & Hlast & Hone).
  { left. }
  assert (Spec.last_with_key Spec.TTHC_MA (Some (JS.SStr "1.000001")) allTTHC
            = Some (Samples.tthc "1.000001" "c")) as Hc by (vm_compute; reflexivity).
  rewrite Hc in Hlast. injection Hlast as <-.
  split; [exact Hone|]. apply Hsub.
  assert (Samples.tthc "1.000001" "c"
            ∈ Spec.with_key Spec.TTHC_MA (Some (JS.SStr "1.000001"))
                (ListTTHC.uniqueTTHC allTTHC)) as Hin by (rewrite Hone; left).
  unfold Spec.with_key in Hin. by apply list_elem_of_filter in Hin as [_ ?].
Defined.

(** C6.  Deduplicating twice gives what deduplicating once gives. *)
Theorem C6_dedup_idempotent (allTTHC : list Runtime.row) :
  ListTTHC.uniqueTTHC (ListTTHC.uniqueTTHC allTTHC) = ListTTHC.uniqueTTHC allTTHC.
Proof. apply (dedup_idempotent Spec.TTHC_MA). Qed.

(** C10.  The rows of the deduplicated list come in the order in which
    their TTHC_MA values first occur in the input, and each of them is the
    last input row with its TTHC_MA: a repeated key stays where it was
    first fetched and carries the fields of its latest fetch. *)
Theorem C10_dedup_first_place_last_fields (allTTHC : list Runtime.row) :
  Spec.TTHC_MA <$> ListTTHC.uniqueTTHC allTTHC
    = Spec.first_occurrences (Spec.TTHC_MA <$> allTTHC)
  ∧ Forall (λ r, Spec.last_with_key Spec.TTHC_MA (Spec.TTHC_MA r) allTTHC = Some r)
      (ListTTHC.uniqueTTHC allTTHC).
Proof.
  unfold ListTTHC.uniqueTTHC. split.
  - apply (dedup_keys Spec.TTHC_MA).
  - apply Forall_forall. intros r. apply (dedup_elem_of Spec.TTHC_MA).
Qed.

(** ** Arithmetic of the page bound *)

Section CeilFacts.
Import JS.

(** [ceil_div a b] is the least integer [c] with [a <= c * b]. *)
Lemma ceil_div_spec (a : Z) (b : positive) (c : Z) :
  ceil_div a b = c ↔ ((c - 1) * Z.pos b < a ≤ c * Z.pos b)%Z.
Proof.
  unfold ceil_div. pose proof (Z.div_mod (- a) (Z.pos b) ltac:(lia)) as Hdm.
  pose proof (Z.mod_pos_bound (- a) (Z.pos b) ltac:(lia)) as Hm. split.
  - intros <-. nia.
  - intros [Hlo Hhi]. nia.
Qed.



End CeilFacts.

(** ** The runtime *)

Section RuntimeFacts.
Import JS Runtime Spec.

Lemma bind_run {A B} (m : M A) (f : A → M B) w :
  (m ≫= f) w =
    match m w with
    | (Return a, w') => f a w'
    | (Throw e, w') => (Throw e, w')
    end.
Proof. done. Qed.

Lemma for_of_cons {A S} (x : A) (xs : list A) (body : A → S → M (flow * S)) (s : S) w :
  for_of (x :: xs) body s w =
    match body x s w with
    | (Return r, w') =>
        match r.1 with
        | Next => for_of xs body r.2 w'
        | Break => (Return r.2, w')
        end
    | (Throw e, w') => (Throw e, w')
    end.
Proof. simpl. rewrite bind_run. by destruct (body x s w) as [[[[] ?]|] ?]. Qed.

Lemma response_at_sent w r i r' :
  response_at (sent r w) i r' = response_at w (S i) r'.
Proof.
  unfold response_at, sent. simpl. rewrite length_app. simpl.
  f_equal. lia.
Qed.

Lemma issues_refl w : issues w w [].
Proof. unfold issues. by rewrite app_nil_r. Qed.

Lemma issues_trans w1 w2 w3 rs1 rs2 :
  issues w1 w2 rs1 → issues w2 w3 rs2 → issues w1 w3 (rs1 ++ rs2).
Proof.
  unfold issues. intros [Hn1 Hq1] [Hn2 Hq2]. split; [congruence|].
  by rewrite Hq2, Hq1, app_assoc.
Qed.

Lemma issues_sent w r : issues w (sent r w) [r].
Proof. done. Qed.

Lemma issues_logged w w' rs s : issues w w' rs → issues w (logged s w') rs.
Proof. done. Qed.

Lemma issues_response_at w w' rs i r :
  issues w w' rs → response_at w' i r = response_at w (length rs + i) r.
Proof.
  unfold issues, response_at. intros [-> ->]. rewrite length_app.
  f_equal. lia.
Qed.

Lemma gathered_ext w1 w2 oc req i j pages :
  (∀ k r, response_at w1 (i + k) r = response_at w2 (j + k) r) →
  gathered w1 oc req i pages = gathered w2 oc req j pages.
Proof.
  revert i j. induction pages as [|p pages IH]; intros i j Hw; [done|].
  simpl. pose proof (Hw 0%nat (req p)) as H0.
  rewrite !Nat.add_0_r in H0. rewrite H0. f_equal.
  apply IH. intros k r. specialize (Hw (S k) r).
  by rewrite !Nat.add_succ_r in Hw.
Qed.

End RuntimeFacts.

(** ** The decision lister *)

Section DecisionCrawlerFacts.
Import JS Runtime Spec DecisionCrawler.

Lemma fetchPage_run this p w :
  fetchPage this p w =
    match decision_page (response_at w 0 (decision_request this p)) with
    | Return j => (Return j, sent (decision_request this p) w)
    | Throw e =>
        (Throw e,
         logged ("Error fetching page " +:+ pretty p +:+ ": " +:+ e)
           (sent (decision_request this p) w))
    end.
Proof.
  unfold fetchPage, try_catch, fetch, send, response_at, decision_request.
  unfold mbind, M_bind, mret, M_ret, throw, res_json, decision_page, outcome.
  rewrite Nat.add_0_r.
  destruct (net w (length (requests w)) _) as [msg|res]; [done|].
  simpl. destruct (ok res); [|done].
  destruct (parsed res); done.
Qed.

Lemma crawl_page_run p this w :
  ∃ w',
    crawl_page p this w =
      (Return (Next,
         match page_rows (decision_page (response_at w 0 (decision_request this p))) with
         | [] => this
         | rows => push this rows
         end), w')
    ∧ issues w w' [decision_request this p].
Proof.
  unfold crawl_page, try_catch, mbind, M_bind. rewrite fetchPage_run.
  destruct (decision_page _) as [j|e]; simpl.
  - eexists. split; [|apply issues_sent]. by destruct j as [|[|r rows]| |].
  - eexists. split; [done|]. do 2 apply issues_logged. apply issues_sent.
Qed.

(** The loop of [crawlAll] requests every page of its range, one
    request each, and pushes what each page delivers. *)
Lemma crawl_rest_run totalPages this w :
  ∃ this' w',
    crawl_rest totalPages this w = (Return this', w')
    ∧ baseUrl this' = baseUrl this
    ∧ recordsPerPage this' = recordsPerPage this
    ∧ allDecisions this' =
        allDecisions this
          ++ gathered w decision_page (decision_request this) 0 (range_incl 2 totalPages)
    ∧ issues w w' (decision_request this <$> range_incl 2 totalPages).
Proof.
  unfold crawl_rest. generalize (range_incl 2 totalPages) as pages.
  intros pages. revert this w.
  induction pages as [|p pages IH]; intros this w.
  - exists this, w. simpl. unfold issues. rewrite !app_nil_r. done.
  - simpl. unfold mbind, M_bind.
    destruct (crawl_page_run p this w) as (w1 & -> & Hn1 & Hq1). simpl.
    set (this1 := match page_rows _ with [] => this | _ => _ end).
    assert (baseUrl this1 = baseUrl this
            ∧ recordsPerPage this1 = recordsPerPage this
            ∧ allDecisions this1 =
                allDecisions this
                  ++ page_rows (decision_page (response_at w 0 (decision_request this p))))
      as (Hb & Hr & Ha).
    { unfold this1. destruct (page_rows _); simpl; [|done].
      by rewrite app_nil_r. }
    destruct (IH this1 w1) as (this' & w' & -> & Hb' & Hr' & Ha' & Hn & Hq).
    assert (decision_request this1 = decision_request this) as Hreq.
    { unfold decision_request, params. by rewrite Hb, Hr. }
    exists this', w'. split; [done|]. repeat split; try congruence.
    + rewrite Ha', Ha, <-app_assoc, Hreq. do 2 f_equal.
      apply gathered_ext. intros k r. unfold response_at.
      rewrite Hn1, Hq1, length_app. simpl. f_equal. lia.
    + rewrite Hq, Hq1, Hreq, <-app_assoc. done.
Qed.

(** [crawlAll] case by case on what the first page request comes to. *)
Lemma crawlAll_run this w :
  let req := decision_request this in
  match decision_page (response_at w 0 (req 1%Z)) with
  | Throw e =>
      crawlAll this w =
        (Throw e, logged ("Error fetching page 1: " +:+ e) (sent (req 1%Z) w))
  | Return (JRows (r0 :: rows)) =>
      let totalPages :=
        Math_ceil_div (parseInt (r0 !! "AMOUNT")) (recordsPerPage this) in
      ∃ this' w',
        crawlAll this w = (Return (allDecisions this', this'), w')
        ∧ allDecisions this' =
            allDecisions this ++ (r0 :: rows)
              ++ gathered w decision_page req 1 (range_incl 2 totalPages)
        ∧ issues w w' (req <$> 1%Z :: range_incl 2 totalPages)
  | Return _ =>
      crawlAll this w = (Return ([], this), logged "No data found." (sent (req 1%Z) w))
  end.
Proof.
  intros req. unfold crawlAll, mbind, M_bind. rewrite fetchPage_run.
  fold req. destruct (decision_page (response_at w 0 (req 1%Z))) as [j|e]; [|done].
  destruct j as [|[|r0 rows]| |]; try done.
  set (this1 := push this (r0 :: rows)).
  set (T := calculateTotalPages this1 _).
  destruct (crawl_rest_run T this1 (sent (req 1%Z) w))
    as (this' & w' & -> & Hb & Hr & Ha & Hq).
  exists this', w'. split; [done|]. split.
  - rewrite Ha. unfold this1. simpl. rewrite <-app_assoc. f_equal.
    change (r0 :: rows ++ ?l) with ((r0 :: rows) ++ l). f_equal.
    apply gathered_ext. intros k r. simpl. apply response_at_sent.
  - apply (issues_trans _ _ _ [req 1%Z] _ (issues_sent _ _)) in Hq. done.
Qed.
End DecisionCrawlerFacts.

(** ** The procedure lister *)

Section ListTTHCFacts.
Import JS Runtime Spec ListTTHC.
Variable args : list string.
Variable PAGE_SIZE : positive.

Local Abbreviation req := (tthc_request args PAGE_SIZE).

Lemma fetchTTHC_run p w :
  ∃ w', fetchTTHC args PAGE_SIZE p w = (tthc_page (response_at w 0 (req p)), w')
        ∧ issues w w' [req p].
Proof.
  unfold fetchTTHC, send, response_at, tthc_request, mbind, M_bind.
  rewrite Nat.add_0_r. simpl.
  destruct (net w (length (requests w)) _) as [msg|res]; simpl.
  - eexists. split; [done|]. apply issues_sent.
  - unfold tthc_page, outcome. destruct (status res =? 200)%Z.
    + destruct (parsed res); eexists; (split; [done|]).
      * apply issues_logged, issues_sent.
      * apply issues_sent.
    + eexists. split; [done|]. apply issues_logged, issues_sent.
Qed.

(** One turn of the loop: a page that fails is skipped and the loop
    goes on; a page without rows, or the limit, ends it. *)
Lemma fetch_next_run p acc w :
  ∃ w',
    issues w w' [req p]
    ∧ fetch_next args PAGE_SIZE p acc w =
        (Return
           match tthc_page (response_at w 0 (req p)) with
           | Throw _ => (Next, acc)
           | Return (JRows (r :: rows)) =>
               (if limit_reached args (acc ++ r :: rows) then Break else Next,
                acc ++ r :: rows)
           | Return _ => (Break, acc)
           end, w').
Proof.
  unfold fetch_next, try_catch, mbind, M_bind.
  destruct (fetchTTHC_run p w) as (w1 & -> & Hq).
  destruct (tthc_page _) as [j|e]; simpl.
  - destruct j as [|[|r rows]| |]; simpl;
      try (eexists; split; [by apply issues_logged|done]).
    destruct (limit_reached args _); eexists; split; done.
  - eexists. split; [by apply issues_logged|done].
Qed.

(** The loop over the remaining pages requests a prefix of its range,
    in order, and ends up with the rows those pages delivered; a page
    that fails does not end the loop. *)
Lemma fetch_loop_run pages acc w :
  ∃ all w' k,
    for_of pages (fetch_next args PAGE_SIZE) acc w = (Return all, w')
    ∧ (k ≤ length pages)%nat
    ∧ (0 < length pages → 0 < k)%nat
    ∧ issues w w' (req <$> take k pages)
    ∧ all = acc ++ gathered w tthc_page req 0 (take k pages)
    ∧ (∀ n p e, (n < k)%nat → pages !! n = Some p →
         tthc_page (response_at w n (req p)) = Throw e →
         (S n < length pages)%nat → (S n < k)%nat).
Proof.
  revert acc w. induction pages as [|p pages IH]; intros acc w.
  - exists acc, w, 0%nat. simpl. rewrite app_nil_r.
    split; [done|]. split; [done|]. split; [lia|]. split; [apply issues_refl|].
    split; [done|lia].
  - simpl. unfold mbind, M_bind.
    destruct (fetch_next_run p acc w) as (w1 & Hq1 & ->).
    pose proof (λ k r, issues_response_at w w1 _ k r Hq1) as Hshift. simpl in Hshift.
    destruct (tthc_page (response_at w 0 (req p))) as [j|e] eqn:Hp; simpl.
    + (* the page arrived *)
      destruct (match j with
                | JRows (r :: rows) =>
                    if limit_reached args (acc ++ r :: rows) then Break else Next
                | _ => Break
                end) eqn:Hflow.
      * (* and the loop goes on *)
        destruct j as [|[|r rows]| |]; try done. simpl.
        destruct (limit_reached args _); [done|]. simpl.
        destruct (IH (acc ++ r :: rows) w1)
          as (all & w' & k & -> & Hk & Hk0 & Hq & Hall & Hfail).
        exists all, w', (S k). split; [done|]. subst all. simpl.
        split; [lia|]. split; [lia|].
        split; [apply (issues_trans _ _ _ [req p] _ Hq1 Hq)|]. split.
        -- rewrite Hp. simpl. rewrite <-app_assoc. f_equal.
           change (r :: rows ++ ?l) with ((r :: rows) ++ l). f_equal.
           apply gathered_ext. intros i r0. simpl. apply Hshift.
        -- intros [|n] p' e Hn Hp' He Hlen.
           ++ simpl in Hp'. injection Hp' as <-. congruence.
           ++ simpl in Hp'. rewrite <-Hshift in He.
              specialize (Hfail n p' e ltac:(lia) Hp' He ltac:(lia)). lia.
      * (* and the loop ends here *)
        exists (acc ++ page_rows (Return j)), w1, 1%nat. split.
        { destruct j as [|[|r rows]| |]; simpl; rewrite ?app_nil_r; try done.
          simpl in Hflow. destruct (limit_reached args _); done. }
        simpl. rewrite ?take_0. simpl. rewrite Hp, app_nil_r.
        split; [lia|]. split; [lia|]. split; [done|]. split; [done|].
        intros [|n] p' e Hn Hp' He _; [|lia].
           simpl in Hp'. injection Hp' as <-. congruence.
    + (* the page failed: it is skipped *)
      destruct (IH acc w1) as (all & w' & k & -> & Hk & Hk0 & Hq & Hall & Hfail).
      exists all, w', (S k). split; [done|]. subst all. simpl.
      split; [lia|]. split; [lia|].
      split; [apply (issues_trans _ _ _ [req p] _ Hq1 Hq)|]. split.
      * rewrite Hp. simpl. f_equal. apply gathered_ext.
        intros i r0. simpl. apply Hshift.
      * intros [|n] p' e' Hn Hp' He Hlen.
        -- simpl in Hlen. lia.
        -- simpl in Hp'. rewrite <-Hshift in He.
           specialize (Hfail n p' e' ltac:(lia) Hp' He ltac:(lia)). lia.
Qed.

(** [main] case by case on what the first page request comes to. *)
Lemma main_run w :
  match tthc_page (response_at w 0 (req 1%Z)) with
  | Throw e => ∃ w', main args PAGE_SIZE w = (Throw e, w') ∧ issues w w' [req 1%Z]
  | Return (JRows (r0 :: rows)) =>
      let pages := range_incl 2 (maxPages args PAGE_SIZE (totalRecords r0)) in
      ∃ all w' k,
        main args PAGE_SIZE w = (Return (Some (finalResult args (uniqueTTHC all))), w')
        ∧ (k ≤ length pages)%nat
        ∧ (0 < length pages → 0 < k)%nat
        ∧ issues w w' (req 1%Z :: (req <$> take k pages))
        ∧ all = (r0 :: rows) ++ gathered w tthc_page req 1 (take k pages)
        ∧ (∀ n p e, (n < k)%nat → pages !! n = Some p →
             tthc_page (response_at w (S n) (req p)) = Throw e →
             (S n < length pages)%nat → (S n < k)%nat)
  | Return _ => ∃ w', main args PAGE_SIZE w = (Return None, w') ∧ issues w w' [req 1%Z]
  end.
Proof.
  unfold main, try_catch, mbind, M_bind.
  destruct (fetchTTHC_run 1 w) as (w1 & -> & Hq1).
  pose proof (λ k r, issues_response_at w w1 _ k r Hq1) as Hshift. simpl in Hshift.
  destruct (tthc_page (response_at w 0 (req 1%Z))) as [j|e]; simpl.
  - destruct j as [|[|r0 rows]| |]; simpl;
      try (eexists; split; [done|by apply issues_logged]).
    unfold fetch_remaining.
    destruct (fetch_loop_run (range_incl 2 (maxPages args PAGE_SIZE (totalRecords r0)))
                (r0 :: rows) w1)
      as (all & w' & k & -> & Hk & Hk0 & Hq & Hall & Hfail).
    exists all, w', k. split; [done|]. split; [done|]. split; [done|].
    split; [apply (issues_trans _ _ _ [req 1%Z] _ Hq1 Hq)|]. split.
    + rewrite Hall. simpl. do 2 f_equal.
      apply gathered_ext. intros i r. simpl. apply Hshift.
    + intros n p e Hn Hp He. rewrite <-Hshift in He. eauto.
  - eexists. split; [done|]. by apply issues_logged.
Qed.
End ListTTHCFacts.

(** ** The emohbackup crawler *)

Section EmohFacts.
Import JS Runtime Spec Emoh.

Lemma is_page_request_page p size : is_page_request (GET (page_url p size)) = true.
Proof. reflexivity. Qed.

Lemma emoh_fetchPage_run p size w :
  ∃ w',
    fetchPage p size w = (Return (emoh_served (response_at w 0 (GET (page_url p size)))), w')
    ∧ issues w w' [GET (page_url p size)]
    ∧ disk w' = disk w.
Proof.
  unfold fetchPage, try_catch, fetch, send, response_at, emoh_served, emoh_page, outcome.
  unfold mbind, M_bind, mret, M_ret, throw, res_json, data_data.
  rewrite Nat.add_0_r.
  destruct (net w (length (requests w)) _) as [msg|res]; simpl.
  - eexists. split; [done|]. split; [|done]. apply issues_logged, issues_sent.
  - destruct (ok res); simpl.
    + destruct (parsed res) as [msg|j]; simpl.
      * eexists. split; [done|]. split; [|done]. apply issues_logged, issues_sent.
      * destruct j; simpl; eexists; (split; [done|]); (split; [|done]);
          first [apply issues_sent | apply issues_logged, issues_sent].
    + eexists. split; [done|]. split; [|done]. apply issues_logged, issues_sent.
Qed.

Lemma issues_pages_refl w : issues_pages w w [].
Proof. unfold issues_pages. by rewrite app_nil_r. Qed.

Lemma issues_logged_pages w w' ps s : issues_pages w w' ps → issues_pages w (logged s w') ps.
Proof. done. Qed.

Lemma issues_pages_trans w1 w2 w3 ps1 ps2 :
  issues_pages w1 w2 ps1 → issues_pages w2 w3 ps2 → issues_pages w1 w3 (ps1 ++ ps2).
Proof.
  unfold issues_pages. intros [Hn1 Hq1] [Hn2 Hq2]. split; [congruence|].
  by rewrite Hq2, Hq1, app_assoc.
Qed.

Lemma issues_issues_pages w w' rs :
  issues w w' rs →
  issues_pages w w' (filter (λ r, is_page_request r = true) rs).
Proof.
  unfold issues, issues_pages, page_fetches. intros [-> ->].
  by rewrite filter_app.
Qed.

Lemma filter_page_requests P (pages : list Z) :
  filter (λ r, is_page_request r = true) (emoh_request P <$> pages)
    = emoh_request P <$> pages.
Proof.
  induction pages as [|p pages IH]; [done|].
  rewrite fmap_cons, filter_cons_True by apply is_page_request_page.
  by rewrite IH.
Qed.

(** [downloadAttachment] never throws; it sends at most one request,
    and that one goes to the attachment endpoint. *)
Lemma downloadAttachment_run att id w :
  ∃ w',
    downloadAttachment att id w = (Return (), w')
    ∧ (issues w w' []
       ∨ issues w w' [GET (ATTACH_URL +:+ "/" +:+ to_string (attachId att))]).
Proof.
  unfold downloadAttachment, try_catch, mbind, M_bind, mkdirSync, existsSync.
  destruct (disk w !! folderPath id) as [[|c]|] eqn:Hfolder; simpl.
  all: try (eexists; split; [done|]; left; apply issues_logged, issues_refl).
  all: destruct (bool_decide _); simpl;
    try (eexists; split; [done|]; left; apply issues_logged; split; [done|];
         simpl; by rewrite app_nil_r).
  all: unfold fetch, send, mbind, M_bind; simpl;
    destruct (net w (length (requests w)) _) as [msg|res]; simpl;
    try (eexists; split; [done|]; right; by apply issues_logged).
  all: destruct (ok res); simpl;
    try (eexists; split; [done|]; right; by apply issues_logged).
  all: unfold writeFileSync; simpl;
    destruct (_ !! filePath att id) as [[|c']|]; simpl;
    eexists; (split; [done|]); right; by apply issues_logged.
Qed.

Lemma downloadAttachment_pages att id w :
  ∃ w', downloadAttachment att id w = (Return (), w') ∧ issues_pages w w' [].
Proof.
  destruct (downloadAttachment_run att id w) as (w' & Hrun & [Hq|Hq]);
    exists w'; (split; [done|]); by apply issues_issues_pages in Hq.
Qed.

Lemma download_atts_pages id atts w :
  ∃ w',
    for_of atts (λ att _, downloadAttachment att id;; mret (Next, ())) () w
      = (Return (), w')
    ∧ issues_pages w w' [].
Proof.
  revert w. induction atts as [|att atts IH]; intros w.
  - exists w. split; [done|]. apply issues_pages_refl.
  - simpl. rewrite !bind_run.
    destruct (downloadAttachment_pages att id w) as (w1 & -> & Hq1). simpl.
    destruct (IH w1) as (w' & -> & Hq). exists w'. split; [done|].
    apply (issues_pages_trans _ _ _ [] [] Hq1 Hq).
Qed.

Lemma download_docs_pages ds w :
  ∃ w', for_of ds download_doc () w = (Return (), w') ∧ issues_pages w w' [].
Proof.
  revert w. induction ds as [|d ds IH]; intros w.
  - exists w. split; [done|]. apply issues_pages_refl.
  - simpl. rewrite bind_run. unfold download_doc at 1.
    destruct (attachments d) as [atts|]; simpl.
    + rewrite bind_run.
      destruct (download_atts_pages (documentId d) atts w) as (w1 & -> & Hq1). simpl.
      destruct (IH w1) as (w' & -> & Hq). exists w'. split; [done|].
      apply (issues_pages_trans _ _ _ [] [] Hq1 Hq).
    + apply IH.
Qed.

Lemma download_page_run P p w :
  ∃ w',
    download_page P p () w = (Return (Next, ()), w')
    ∧ issues_pages w w' [emoh_request P p].
Proof.
  unfold download_page. rewrite !bind_run.
  destruct (emoh_fetchPage_run p (Z.pos P) w) as (w1 & -> & Hq1 & _).
  rewrite bind_run.
  destruct (download_docs_pages (docs (emoh_served (response_at w 0 (GET (page_url p (Z.pos P)))))) w1)
    as (w' & -> & Hq). simpl. exists w'. split; [done|].
  apply issues_issues_pages in Hq1. simpl in Hq1.
  apply (issues_pages_trans _ _ _ _ [] Hq1 Hq).
Qed.

(** The download pass requests every page once more. *)
Lemma download_pages_run P totalPages w :
  ∃ w',
    download_pages P totalPages w = (Return (), w')
    ∧ issues_pages w w' (emoh_request P <$> range_excl 0 totalPages).
Proof.
  unfold download_pages. generalize (range_excl 0 totalPages) as pages.
  intros pages. revert w. induction pages as [|p pages IH]; intros w.
  - exists w. split; [done|]. apply issues_pages_refl.
  - simpl. rewrite bind_run.
    destruct (download_page_run P p w) as (w1 & -> & Hq1). simpl.
    destruct (IH w1) as (w' & -> & Hq). exists w'. split; [done|].
    apply (issues_pages_trans _ _ _ [_] _ Hq1 Hq).
Qed.

Lemma emoh_gathered_ext w1 w2 P i j pages :
  (∀ k r, response_at w1 (i + k) r = response_at w2 (j + k) r) →
  emoh_gathered w1 P i pages = emoh_gathered w2 P j pages.
Proof.
  revert i j. induction pages as [|q pages IH]; intros i j Hw; [done|]. simpl.
  pose proof (Hw 0%nat (emoh_request P q)) as H0.
  rewrite !Nat.add_0_r in H0. rewrite H0. f_equal. apply IH.
  intros k r. specialize (Hw (S k) r).
  by rewrite !Nat.add_succ_r in Hw.
Qed.

(** The harvesting loop requests every page of its range once and
    appends what each request is served. *)
Lemma crawl_pages_run P totalPages allDocs w :
  ∃ w',
    crawl_pages P totalPages allDocs w
      = (Return (allDocs ++ emoh_gathered w P 0 (range_excl 1 totalPages)), w')
    ∧ issues w w' (emoh_request P <$> range_excl 1 totalPages).
Proof.
  unfold crawl_pages. generalize (range_excl 1 totalPages) as pages.
  intros pages. revert allDocs w. induction pages as [|p pages IH]; intros allDocs w.
  - exists w. simpl. rewrite app_nil_r. split; [done|]. apply issues_refl.
  - simpl. rewrite bind_run. unfold crawl_page at 1. rewrite bind_run.
    destruct (emoh_fetchPage_run p (Z.pos P) w) as (w1 & -> & Hq1 & _). simpl.
    destruct (IH (allDocs ++ docs (emoh_served (response_at w 0 (GET (page_url p (Z.pos P)))))) w1)
      as (w' & -> & Hq).
    exists w'. split.
    + rewrite <-app_assoc, (emoh_gathered_ext w1 w P 0 1 pages); [done|].
      intros k r. apply (issues_response_at _ _ _ _ _ Hq1).
    + apply (issues_trans _ _ _ [_] _ Hq1 Hq).
Qed.

(** [main]: page 0, then pages 1 .. totalPages - 1, then every page
    0 .. totalPages - 1 once more, with [totalPages] taken from what
    page 0 reports. *)
Lemma emoh_main_run P w :
  let firstPage := emoh_served (response_at w 0 (emoh_request P 0)) in
  let totalPages := ceil_div (nTotal firstPage) P in
  ∃ w',
    main P w
      = (Return (docs firstPage ++ emoh_gathered w P 1 (range_excl 1 totalPages)), w')
    ∧ issues_pages w w'
        (emoh_request P <$> 0%Z :: range_excl 1 totalPages ++ range_excl 0 totalPages).
Proof.
  intros firstPage totalPages. unfold main. rewrite bind_run.
  destruct (emoh_fetchPage_run 0 (Z.pos P) w) as (w1 & -> & Hq1 & _).
  fold (emoh_request P 0) firstPage totalPages. rewrite bind_run.
  destruct (crawl_pages_run P totalPages (docs firstPage) w1) as (w2 & -> & Hq2).
  rewrite bind_run.
  destruct (download_pages_run P totalPages w2) as (w3 & -> & Hq3). simpl.
  eexists. split.
  - rewrite (emoh_gathered_ext w1 w P 0 1); [done|].
    intros k r. apply (issues_response_at _ _ _ _ _ Hq1).
  - apply issues_issues_pages in Hq1, Hq2. rewrite filter_page_requests in Hq2.
    simpl in Hq1. rewrite ?fmap_cons, fmap_app.
    apply (issues_pages_trans _ _ _ [_] _ Hq1).
    apply issues_logged_pages.
    apply (issues_pages_trans _ _ _ _ _ Hq2 Hq3).
Qed.
End EmohFacts.

(** ** The claims about the page fetchers and the harvesting loops *)

Section Harvest.
Import JS Runtime Spec.


End Harvest.

(** C2 (amended).  Both page fetchers send exactly one request per call,
    whatever comes back, and never a second one.  On a transport failure
    (no response, a status outside 200..299, a body that does not parse)
    [DecisionCrawler.fetchPage] logs the page index with the cause and
    rethrows the cause, so the call fails; [fetchPage] of crawler.js logs
    the same line and returns the empty page with total 0. *)
Theorem C2_fetchPage_one_request_no_retry :
  (∀ this p w,
     Spec.issues w (DecisionCrawler.fetchPage this p w).2 [Spec.decision_request this p])
  ∧ (∀ this p w cause,
       Spec.decision_page (Spec.response_at w 0 (Spec.decision_request this p)) = Runtime.Throw cause →
       DecisionCrawler.fetchPage this p w =
         (Runtime.Throw cause,
          Runtime.logged ("Error fetching page " +:+ pretty p +:+ ": " +:+ cause)
            (Runtime.sent (Spec.decision_request this p) w)))
  ∧ (∀ p size w,
       Spec.issues w (Emoh.fetchPage p size w).2 [Runtime.GET (Emoh.page_url p size)])
  ∧ (∀ p size w cause,
       Spec.emoh_page (Spec.response_at w 0 (Runtime.GET (Emoh.page_url p size))) = Runtime.Throw cause →
       Emoh.fetchPage p size w =
         (Runtime.Return {| Emoh.docs := []; Emoh.nTotal := 0 |},
          Runtime.logged ("Error fetching page " +:+ pretty p +:+ ": " +:+ cause)
            (Runtime.sent (Runtime.GET (Emoh.page_url p size)) w))).
Proof.
  split; [|split; [|split]].
  - intros this p w. rewrite fetchPage_run.
    destruct (Spec.decision_page _); simpl.
    + apply issues_sent.
    + apply issues_logged, issues_sent.
  - intros this p w cause Hc. by rewrite fetchPage_run, Hc.
  - intros p size w. by destruct (emoh_fetchPage_run p size w) as (w' & -> & Hq & _).
  - intros p size w cause.
    unfold Emoh.fetchPage, Runtime.try_catch, Runtime.fetch, Runtime.send.
    unfold Spec.response_at, Spec.emoh_page, Spec.outcome.
    unfold mbind, Runtime.M_bind, mret, Runtime.M_ret, Runtime.throw, Runtime.res_json.
    rewrite Nat.add_0_r.
    destruct (Runtime.net w (length (Runtime.requests w)) _) as [msg|res]; simpl.
    + by intros [= ->].
    + destruct (Runtime.ok res); simpl; [|by intros [= ->]].
      destruct (Runtime.parsed res); simpl; [|done]. by intros [= ->].
Qed.

(** C2, witness: page 3 while the network is down. *)
Lemma C2_fetchPage_one_request_no_retry_witness :
  DecisionCrawler.fetchPage (DecisionCrawler.new 50) 3 Samples.offline =
    (Runtime.Throw "ECONNRESET",
     Runtime.logged "Error fetching page 3: ECONNRESET"
       (Runtime.sent (Spec.decision_request (DecisionCrawler.new 50) 3) Samples.offline))
  ∧ Emoh.fetchPage 3 50 Samples.offline =
      (Runtime.Return {| Emoh.docs := []; Emoh.nTotal := 0 |},
       Runtime.logged "Error fetching page 3: ECONNRESET"
         (Runtime.sent (Runtime.GET (Emoh.page_url 3 50)) Samples.offline)).
Proof.
  destruct C2_fetchPage_one_request_no_retry as (_ & Hd & _ & He). split.
  - apply (Hd (DecisionCrawler.new 50) 3%Z Samples.offline "ECONNRESET"). reflexivity.
  - apply (He 3%Z 50%Z Samples.offline "ECONNRESET"). reflexivity.
Defined.

(** C2, counterexample: with the network down, [fetchPage] of crawler.js
    does not fail; it returns a normal, empty page. *)
Lemma C2_counterexample_emoh_returns_empty_page :
  (Emoh.fetchPage 3 50 Samples.offline).1
    = Runtime.Return {| Emoh.docs := []; Emoh.nTotal := 0 |}
  ∧ ∀ cause, (Emoh.fetchPage 3 50 Samples.offline).1 ≠ Runtime.Throw cause.
Proof. split; [reflexivity|]. intros cause. vm_compute. discriminate. Qed.

(** C8 (amended).  When the first page arrives and holds no rows,
    [crawlAll] returns the empty array and [main] of list_tthc.js returns
    without writing; either has sent the one request and sends no other.
    [main] of crawler.js has no such exit: it goes by the total the first
    page reports, so it stops after the first request, with an empty
    collection, when that page lists no document and reports (or, for a
    failed request, is given) a total of 0. *)
Theorem C8_empty_first_page :
  (∀ this w j,
     Spec.decision_page (Spec.response_at w 0 (Spec.decision_request this 1)) = Runtime.Return j →
     Spec.page_rows (Runtime.Return j) = [] →
     DecisionCrawler.crawlAll this w =
       (Runtime.Return ([], this),
        Runtime.logged "No data found." (Runtime.sent (Spec.decision_request this 1) w)))
  ∧ (∀ args PAGE_SIZE w j,
       Spec.tthc_page (Spec.response_at w 0 (Spec.tthc_request args PAGE_SIZE 1)) = Runtime.Return j →
       Spec.page_rows (Runtime.Return j) = [] →
       ∃ w', ListTTHC.main args PAGE_SIZE w = (Runtime.Return None, w')
             ∧ Spec.issues w w' [Spec.tthc_request args PAGE_SIZE 1])
  ∧ (∀ pageSize w,
       let firstPage := Spec.emoh_served (Spec.response_at w 0 (Spec.emoh_request pageSize 0)) in
       Emoh.docs firstPage = [] →
       Emoh.nTotal firstPage = 0%Z →
       ∃ w', Emoh.main pageSize w = (Runtime.Return [], w')
             ∧ Spec.issues_pages w w' [Spec.emoh_request pageSize 0]).
Proof.
  split; [|split].
  - intros this w j Hj Hrows. pose proof (crawlAll_run this w) as Hrun.
    simpl in Hrun. rewrite Hj in Hrun.
    by destruct j as [|[|r0 rows]| |].
  - intros args PAGE_SIZE w j Hj Hrows. pose proof (main_run args PAGE_SIZE w) as Hrun.
    rewrite Hj in Hrun. by destruct j as [|[|r0 rows]| |].
  - intros pageSize w firstPage Hdocs Htotal.
    destruct (emoh_main_run pageSize w) as (w' & Hrun & Hq).
    fold firstPage in Hrun, Hq. rewrite Hdocs, Htotal in Hrun. rewrite Htotal in Hq.
    exists w'. split; [exact Hrun|exact Hq].
Qed.

(** C8, witness: an empty array from either lister, and crawler.js with
    the network down. *)
Lemma C8_empty_first_page_witness :
  let empty := Samples.start (λ _ _, Samples.http200 (Runtime.JRows [])) in
  DecisionCrawler.crawlAll (DecisionCrawler.new 50) empty =
    (Runtime.Return ([], DecisionCrawler.new 50),
     Runtime.logged "No data found."
       (Runtime.sent (Spec.decision_request (DecisionCrawler.new 50) 1) empty))
  ∧ (∃ w', ListTTHC.main [] 1000 empty = (Runtime.Return None, w')
           ∧ Spec.issues empty w' [Spec.tthc_request [] 1000 1])
  ∧ (∃ w', Emoh.main 50 Samples.offline = (Runtime.Return [], w')
           ∧ Spec.issues_pages Samples.offline w' [Spec.emoh_request 50 0]).
Proof.
  intros empty. destruct C8_empty_first_page as (Hd & Ht & He). split; [|split].
  - apply (Hd (DecisionCrawler.new 50) empty (Runtime.JRows [])); reflexivity.
  - apply (Ht [] 1000%positive empty (Runtime.JRows [])); reflexivity.
  - apply (He 50%positive Samples.offline); reflexivity.
Defined.

(** C8, counterexample: the first page of crawler.js lists no document
    but reports 120 of them; the run returns no document and yet sends
    five more page requests after the first. *)
Lemma C8_counterexample_emoh_goes_on :
  Emoh.docs (Spec.emoh_served
               (Spec.response_at Samples.emoh_120_empty 0 (Spec.emoh_request 50 0))) = []
  ∧ (Emoh.main 50 Samples.emoh_120_empty).1 = Runtime.Return []
  ∧ Emoh.page_fetches (Emoh.main 50 Samples.emoh_120_empty).2 =
      Spec.emoh_request 50 <$> [0; 1; 2; 0; 1; 2]%Z.
Proof. split; [|split]; reflexivity. Qed.






(** [--limit 0], like a missing or unreadable number, reads as no limit:
the script tests [limit] for truthiness. *)
Example limit_zero_is_no_limit :
  ListTTHC.limit_given ["--limit"; "0"] = None
  ∧ ListTTHC.limit_given ["--limit"] = None
  ∧ ListTTHC.limit_given ["--limit"; "10"] = Some 10%Z.
Proof. split; [|split]; reflexivity. Qed.



(** ** Attachment downloads *)

Section DownloadFacts.
Import JS Runtime Spec.







End DownloadFacts.




(** ** The enrichment passes *)

Section FetchDetailsFacts.
Import JS Runtime Spec FetchDetails.
Variable extract : string → string → option string.
Variable rp_files : string → list (string * string).

Lemma set_field_lookup_eq k v (o : row) : set_field k v o !! k = v.
Proof.
  unfold set_field. destruct v; [apply lookup_insert_eq|apply lookup_delete_eq].
Qed.

Lemma set_field_lookup_ne k k' v (o : row) : k ≠ k' → set_field k v o !! k' = o !! k'.
Proof.
  intros Hne. unfold set_field.
  destruct v; [by apply lookup_insert_ne|by apply lookup_delete_ne].
Qed.



Lemma vanban_details_ext w1 w2 i j docs :
  (∀ k r, response_at w1 (i + k) r = response_at w2 (j + k) r) →
  vanban_details extract rp_files w1 i docs = vanban_details extract rp_files w2 j docs.
Proof.
  revert i j. induction docs as [|doc docs IH]; intros i j Hw; [done|]. simpl.
  pose proof (Hw 0%nat (vanban_request doc)) as H0.
  rewrite !Nat.add_0_r in H0. rewrite H0. f_equal. apply IH.
  intros k r. specialize (Hw (S k) r). by rewrite !Nat.add_succ_r in Hw.
Qed.



Lemma vanban_details_length w i docs :
  length (vanban_details extract rp_files w i docs) = length docs.
Proof. revert i. induction docs as [|d docs IH]; intros i; simpl; [done|]. by rewrite IH. Qed.
End FetchDetailsFacts.

Section DecisionDetailFacts.
Import JS Runtime Spec DecisionDetailCrawler.
Variable extractAttachments : string → list row.










Lemma batches_go_concat {A} (n : nat) batchSize (l : list A) :
  (length l ≤ n)%nat → concat (batches_go n batchSize l) = l.
Proof.
  revert l. induction n as [|n IH]; intros l Hl.
  - destruct l; [done|simpl in Hl; lia].
  - destruct l as [|x l]; [done|].
    change (batches_go (S n) batchSize (x :: l))
      with (take (Pos.to_nat batchSize) (x :: l)
              :: batches_go n batchSize (drop (Pos.to_nat batchSize) (x :: l))).
    simpl concat. rewrite IH; [apply take_drop|].
    rewrite length_drop. simpl in *. lia.
Qed.

Lemma batches_concat {A} batchSize (l : list A) : concat (batches batchSize l) = l.
Proof. by apply batches_go_concat. Qed.

End DecisionDetailFacts.




(** * Further properties *)

(** ** Reading numbers and flags *)

Section ParseIntFacts.
Import JS.





End ParseIntFacts.

Section LimitFacts.
Import JS.



End LimitFacts.



(** ** The listers beyond the claims *)

(** X2.  A failure of the request for the first page stops both
    listers, unlike the failure of a later page.  [crawlAll] of
    DecisionCrawler rejects with the cause, after that one request and
    its error report.  [main] of list_tthc.js takes its fatal path with
    the cause: it has sent that one request, its last console line is
    the fatal error with the cause, and the disk is as before. *)
Theorem X2_first_page_failure_is_fatal :
  (∀ this w cause,
     Spec.decision_page (Spec.response_at w 0 (Spec.decision_request this 1))
       = Runtime.Throw cause →
     DecisionCrawler.crawlAll this w =
       (Runtime.Throw cause,
        Runtime.logged ("Error fetching page 1: " +:+ cause)
          (Runtime.sent (Spec.decision_request this 1) w)))
  ∧ (∀ args PAGE_SIZE w cause,
       Spec.tthc_page (Spec.response_at w 0 (Spec.tthc_request args PAGE_SIZE 1))
         = Runtime.Throw cause →
       ∃ w',
         ListTTHC.main args PAGE_SIZE w = (Runtime.Throw cause, w')
         ∧ Spec.issues w w' [Spec.tthc_request args PAGE_SIZE 1]
         ∧ last (Runtime.console w') = Some ("Fatal error: " +:+ cause)
         ∧ Runtime.disk w' = Runtime.disk w).
Proof.
  split.
  - intros this w cause Hc. pose proof (crawlAll_run this w) as Hrun.
    cbv zeta in Hrun. by rewrite Hc in Hrun.
  - intros args PAGE_SIZE w cause.
    unfold ListTTHC.main, ListTTHC.fetchTTHC, Runtime.try_catch, Runtime.send.
    unfold Spec.tthc_page, Spec.outcome, Spec.response_at, Spec.tthc_request.
    rewrite !bind_run, Nat.add_0_r. simpl.
    destruct (Runtime.net w (length (Runtime.requests w)) _) as [msg|res]; simpl.
    + intros [= ->]. eexists. split; [done|]. split; [by apply issues_logged|].
      split; [apply last_snoc|done].
    + destruct (Runtime.status res =? 200)%Z; simpl.
      * destruct (Runtime.parsed res) as [msg|j]; simpl; [|done].
        intros [= <-]. eexists. split; [done|].
        split; [by do 2 apply issues_logged|]. split; [apply last_snoc|done].
      * intros [= <-]. eexists. split; [done|].
        split; [by do 2 apply issues_logged|]. split; [apply last_snoc|done].
Qed.

(** X2, witness: the network is down when either lister starts. *)
Lemma X2_first_page_failure_is_fatal_witness :
  DecisionCrawler.crawlAll (DecisionCrawler.new 50) Samples.offline =
    (Runtime.Throw "ECONNRESET",
     Runtime.logged "Error fetching page 1: ECONNRESET"
       (Runtime.sent (Spec.decision_request (DecisionCrawler.new 50) 1) Samples.offline))
  ∧ ∃ w',
      ListTTHC.main [] 1000 Samples.offline = (Runtime.Throw "ECONNRESET", w')
      ∧ Spec.issues Samples.offline w' [Spec.tthc_request [] 1000 1]
      ∧ last (Runtime.console w') = Some "Fatal error: ECONNRESET"
      ∧ Runtime.disk w' = Runtime.disk Samples.offline.
Proof.
  destruct X2_first_page_failure_is_fatal as (Hd & Ht). split.
  - apply (Hd (DecisionCrawler.new 50) Samples.offline "ECONNRESET"). reflexivity.
  - apply (Ht [] 1000%positive Samples.offline "ECONNRESET"). reflexivity.
Defined.

Section PagingFacts.
Import JS.

Lemma ceil_div_le_1 (a : Z) (b : positive) : (a ≤ Z.pos b)%Z → (ceil_div a b ≤ 1)%Z.
Proof.
  intros Ha. pose proof (proj1 (ceil_div_spec a b _) eq_refl) as [Hlo _]. nia.
Qed.

(** No page after the first when the total does not read as a number
    above the page size. *)
Lemma range_incl_one_page (total : num) (P : positive) :
  (∀ N, total = Num N → (N ≤ Z.pos P)%Z) →
  range_incl 2 (Math_ceil_div total P) = [].
Proof.
  intros Htotal. destruct total as [|N]; [done|]. simpl.
  pose proof (ceil_div_le_1 N P (Htotal N eq_refl)).
  apply seqZ_nil. lia.
Qed.
End PagingFacts.

(** X3.  When the total announced by the first row of the first page
    does not read as a number, or reads as one that does not exceed the
    page size, no second page is requested.  [crawlAll] then returns the
    rows of the first page behind those the crawler held, after one
    request; [main] of list_tthc.js without a limit returns the first
    page with its duplicates removed, after one request. *)
Theorem X3_unreadable_total_ends_after_first_page :
  (∀ this w r0 rows,
     Spec.decision_page (Spec.response_at w 0 (Spec.decision_request this 1))
       = Runtime.Return (Runtime.JRows (r0 :: rows)) →
     (∀ N, JS.parseInt (r0 !! "AMOUNT") = JS.Num N →
           (N ≤ Z.pos (DecisionCrawler.recordsPerPage this))%Z) →
     DecisionCrawler.crawlAll this w =
       (Runtime.Return (DecisionCrawler.allDecisions this ++ r0 :: rows,
                        DecisionCrawler.push this (r0 :: rows)),
        Runtime.sent (Spec.decision_request this 1) w))
  ∧ (∀ args PAGE_SIZE w r0 rows,
       Spec.tthc_page (Spec.response_at w 0 (Spec.tthc_request args PAGE_SIZE 1))
         = Runtime.Return (Runtime.JRows (r0 :: rows)) →
       ListTTHC.limit_given args = None →
       (∀ N, ListTTHC.totalRecords r0 = JS.Num N → (N ≤ Z.pos PAGE_SIZE)%Z) →
       ∃ w',
         ListTTHC.main args PAGE_SIZE w
           = (Runtime.Return (Some (ListTTHC.uniqueTTHC (r0 :: rows))), w')
         ∧ Spec.issues w w' [Spec.tthc_request args PAGE_SIZE 1]).
Proof.
  split.
  - intros this w r0 rows Hfirst Htotal.
    unfold DecisionCrawler.crawlAll. rewrite bind_run, fetchPage_run, Hfirst.
    unfold DecisionCrawler.crawl_rest, DecisionCrawler.calculateTotalPages.
    cbn [DecisionCrawler.recordsPerPage DecisionCrawler.push].
    rewrite range_incl_one_page by done. done.
  - intros args PAGE_SIZE w r0 rows Hfirst Hlimit Htotal.
    pose proof (main_run args PAGE_SIZE w) as Hrun. rewrite Hfirst in Hrun.
    cbv zeta in Hrun. unfold ListTTHC.maxPages in Hrun. rewrite Hlimit in Hrun.
    rewrite range_incl_one_page in Hrun by done.
    destruct Hrun as (all & w' & k & Hrun & Hk & _ & Hq & Hall & _).
    simpl in Hk. replace k with 0%nat in * by lia. simpl in Hq, Hall.
    rewrite app_nil_r in Hall. subst all.
    unfold ListTTHC.finalResult in Hrun. rewrite Hlimit in Hrun.
    by exists w'.
Qed.

(** X3, witness: a first page whose rows carry no total. *)
Lemma X3_unreadable_total_ends_after_first_page_witness :
  let bare := Samples.start (λ _ _, Samples.http200 (Runtime.JRows [Samples.decision])) in
  DecisionCrawler.crawlAll (DecisionCrawler.new 50) bare =
    (Runtime.Return ([Samples.decision],
                     DecisionCrawler.push (DecisionCrawler.new 50) [Samples.decision]),
     Runtime.sent (Spec.decision_request (DecisionCrawler.new 50) 1) bare)
  ∧ ∃ w',
      ListTTHC.main [] 1000 bare
        = (Runtime.Return (Some (ListTTHC.uniqueTTHC [Samples.decision])), w')
      ∧ Spec.issues bare w' [Spec.tthc_request [] 1000 1].
Proof.
  intros bare. destruct X3_unreadable_total_ends_after_first_page as (Hd & Ht). split.
  - apply (Hd (DecisionCrawler.new 50) bare Samples.decision []); [reflexivity|].
    intros N HN. vm_compute in HN. discriminate.
  - apply (Ht [] 1000%positive bare Samples.decision []); [reflexivity|reflexivity|].
    intros N HN. vm_compute in HN. injection HN as <-. lia.
Defined.

Section ListTTHCLoop.
Import JS Runtime Spec ListTTHC.
Variable args : list string.
Variable PAGE_SIZE : positive.

Local Abbreviation req := (tthc_request args PAGE_SIZE).

(** The loop over the remaining pages ends at the first page that
    arrives without rows: no page after it is requested. *)
Lemma fetch_loop_stops pages acc w :
  ∃ all w' k,
    for_of pages (fetch_next args PAGE_SIZE) acc w = (Return all, w')
    ∧ issues w w' (req <$> take k pages)
    ∧ all = acc ++ gathered w tthc_page req 0 (take k pages)
    ∧ (∀ n p j, pages !! n = Some p →
         tthc_page (response_at w n (req p)) = Return j →
         page_rows (Return j) = [] →
         (k ≤ S n)%nat).
Proof.
  revert acc w. induction pages as [|p pages IH]; intros acc w.
  - exists acc, w, 0%nat. simpl. rewrite app_nil_r.
    split; [done|]. split; [apply issues_refl|]. split; [done|]. intros; lia.
  - rewrite for_of_cons.
    destruct (fetch_next_run args PAGE_SIZE p acc w) as (w1 & Hq1 & ->).
    pose proof (λ k r, issues_response_at w w1 _ k r Hq1) as Hshift. simpl in Hshift.
    destruct (tthc_page (response_at w 0 (req p))) as [j|e] eqn:Hp.
    + destruct j as [|[|r rows]| |].
      3: { (* rows: the loop goes on unless the limit is reached *)
        cbn [fst snd]. destruct (limit_reached args (acc ++ r :: rows)).
        - exists (acc ++ r :: rows), w1, 1%nat. split; [done|]. simpl. rewrite ?take_0.
          simpl. rewrite Hp. simpl. rewrite app_nil_r.
          split; [done|]. split; [done|].
          intros [|n] p' j Hp' Hj Hrows; [|lia].
          simpl in Hp'. injection Hp' as <-. rewrite Hp in Hj. by injection Hj as <-.
        - destruct (IH (acc ++ r :: rows) w1) as (all & w' & k & -> & Hq & Hall & Hstop).
          exists all, w', (S k). split; [done|]. simpl.
          split; [apply (issues_trans _ _ _ [req p] _ Hq1 Hq)|]. split.
          + rewrite Hall, Hp. simpl. rewrite <-app_assoc. f_equal.
            change (r :: rows ++ ?l) with ((r :: rows) ++ l). f_equal.
            apply gathered_ext. intros i r0. simpl. apply Hshift.
          + intros [|n] p' j Hp' Hj Hrows.
            * simpl in Hp'. injection Hp' as <-. rewrite Hp in Hj. by injection Hj as <-.
            * simpl in Hp'. rewrite <-Hshift in Hj.
              specialize (Hstop n p' j Hp' Hj Hrows). lia. }
      all: exists acc, w1, 1%nat; (split; [done|]); simpl; rewrite ?take_0; simpl;
        rewrite Hp; simpl; rewrite app_nil_r; (split; [done|]); (split; [done|]);
        intros; lia.
    + cbn [fst snd].
      destruct (IH acc w1) as (all & w' & k & -> & Hq & Hall & Hstop).
      exists all, w', (S k). split; [done|]. simpl.
      split; [apply (issues_trans _ _ _ [req p] _ Hq1 Hq)|]. split.
      * rewrite Hall, Hp. simpl. f_equal. apply gathered_ext.
        intros i r0. simpl. apply Hshift.
      * intros [|n] p' j Hp' Hj Hrows.
        -- simpl in Hp'. injection Hp' as <-. rewrite Hp in Hj. done.
        -- simpl in Hp'. rewrite <-Hshift in Hj.
           specialize (Hstop n p' j Hp' Hj Hrows). lia.
Qed.

(** [main] after a first page with rows, with what ends its loop. *)
Lemma main_stops w r0 rows :
  tthc_page (response_at w 0 (req 1%Z)) = Return (JRows (r0 :: rows)) →
  let pages := range_incl 2 (maxPages args PAGE_SIZE (totalRecords r0)) in
  ∃ all w' k,
    main args PAGE_SIZE w = (Return (Some (finalResult args (uniqueTTHC all))), w')
    ∧ issues w w' (req 1%Z :: (req <$> take k pages))
    ∧ all = (r0 :: rows) ++ gathered w tthc_page req 1 (take k pages)
    ∧ (∀ n p j, pages !! n = Some p →
         tthc_page (response_at w (S n) (req p)) = Return j →
         page_rows (Return j) = [] →
         (k ≤ S n)%nat).
Proof.
  intros Hfirst pages. unfold main, try_catch. rewrite bind_run.
  destruct (fetchTTHC_run args PAGE_SIZE 1 w) as (w1 & -> & Hq1). rewrite Hfirst.
  pose proof (λ k r, issues_response_at w w1 _ k r Hq1) as Hshift. simpl in Hshift.
  unfold fetch_remaining. rewrite bind_run. fold pages.
  destruct (fetch_loop_stops pages (r0 :: rows) w1) as (all & w' & k & -> & Hq & Hall & Hstop).
  exists all, w', k. split; [done|].
  split; [apply (issues_trans _ _ _ [req 1%Z] _ Hq1 Hq)|]. split.
  - rewrite Hall. f_equal. apply gathered_ext. intros i r. simpl. apply Hshift.
  - intros n p j Hp Hj. rewrite <-Hshift in Hj. eauto.
Qed.
End ListTTHCLoop.

(** X4.  list_tthc.js with a negative limit [L]: only the first page is
    requested, and the result is the first page, duplicates removed,
    without its last [-L] records. *)
Theorem X4_negative_limit
    (args : list string) (PAGE_SIZE : positive) (L : Z) (w : Runtime.world)
    (r0 : Runtime.row) (rows : list Runtime.row) :
  ListTTHC.limit_given args = Some L →
  (L < 0)%Z →
  Spec.tthc_page (Spec.response_at w 0 (Spec.tthc_request args PAGE_SIZE 1))
    = Runtime.Return (Runtime.JRows (r0 :: rows)) →
  let unique := ListTTHC.uniqueTTHC (r0 :: rows) in
  ∃ w',
    ListTTHC.main args PAGE_SIZE w
      = (Runtime.Return (Some (take (length unique - Z.to_nat (- L)) unique)), w')
    ∧ Spec.issues w w' [Spec.tthc_request args PAGE_SIZE 1].
Proof.
  intros Hlimit HL Hfirst unique.
  pose proof (main_run args PAGE_SIZE w) as Hrun. rewrite Hfirst in Hrun.
  cbv zeta in Hrun. unfold ListTTHC.maxPages in Hrun. rewrite Hlimit in Hrun.
  rewrite range_incl_one_page in Hrun by (intros N [= <-]; lia).
  destruct Hrun as (all & w' & k & Hrun & Hk & _ & Hq & Hall & _).
  simpl in Hk. replace k with 0%nat in * by lia. simpl in Hq, Hall.
  rewrite app_nil_r in Hall. subst all.
  unfold ListTTHC.finalResult, JS.slice0 in Hrun. rewrite Hlimit in Hrun.
  destruct (Z.ltb_spec L 0); [|lia].
  replace (Z.to_nat (Z.of_nat (length (ListTTHC.uniqueTTHC (r0 :: rows))) + L))
    with (length unique - Z.to_nat (- L))%nat in Hrun by (unfold unique; lia).
  by exists w'.
Qed.

(** X4, witness: [--limit -1] on a first page of two procedures. *)
Lemma X4_negative_limit_witness :
  ∃ w',
    ListTTHC.main ["--limit"; "-1"] 1000 Samples.tthc_page2_down
      = (Runtime.Return (Some [Samples.tthc "1.000001" "a"]), w')
    ∧ Spec.issues Samples.tthc_page2_down w' [Spec.tthc_request ["--limit"; "-1"] 1000 1].
Proof.
  apply (X4_negative_limit ["--limit"; "-1"] 1000 (-1) Samples.tthc_page2_down
           (Samples.tthc "1.000001" "a") [Samples.tthc "1.000002" "b"]);
    [reflexivity|lia|reflexivity].
Defined.

(** X5.  list_tthc.js: a page that arrives with no rows ends the
    crawl.  When the [n]-th of the pages after the first is answered
    with a payload that holds no rows, at most [n + 1] of those pages
    are requested, and the result is made of the rows gathered from the
    pages requested. *)
Theorem X5_empty_page_ends_the_crawl
    (args : list string) (PAGE_SIZE : positive) (w : Runtime.world)
    (r0 : Runtime.row) (rows : list Runtime.row) (n : nat) (p : Z) (j : Runtime.json) :
  let req := Spec.tthc_request args PAGE_SIZE in
  let pages := JS.range_incl 2 (ListTTHC.maxPages args PAGE_SIZE (ListTTHC.totalRecords r0)) in
  Spec.tthc_page (Spec.response_at w 0 (req 1%Z)) = Runtime.Return (Runtime.JRows (r0 :: rows)) →
  pages !! n = Some p →
  Spec.tthc_page (Spec.response_at w (S n) (req p)) = Runtime.Return j →
  Spec.page_rows (Runtime.Return j) = [] →
  ∃ allTTHC w' (k : nat),
    ListTTHC.main args PAGE_SIZE w
      = (Runtime.Return (Some (ListTTHC.finalResult args (ListTTHC.uniqueTTHC allTTHC))), w')
    ∧ (k ≤ S n)%nat
    ∧ Spec.issues w w' (req 1%Z :: (req <$> take k pages))
    ∧ allTTHC = (r0 :: rows) ++ Spec.gathered w Spec.tthc_page req 1 (take k pages).
Proof.
  intros req pages Hfirst Hp Hj Hrows.
  destruct (main_stops args PAGE_SIZE w r0 rows Hfirst)
    as (all & w' & k & Hrun & Hq & Hall & Hstop).
  exists all, w', k. split; [exact Hrun|].
  split; [exact (Hstop n p j Hp Hj Hrows)|]. split; [exact Hq|exact Hall].
Qed.

(** X5, witness: 3000 procedures announced in pages of 1000, and the
    second page arrives empty; the third is never requested. *)
Lemma X5_empty_page_ends_the_crawl_witness :
  ∃ allTTHC w' (k : nat),
    ListTTHC.main [] 1000 Samples.tthc_dry
      = (Runtime.Return (Some (ListTTHC.finalResult [] (ListTTHC.uniqueTTHC allTTHC))), w')
    ∧ (k ≤ 1)%nat
    ∧ Spec.issues Samples.tthc_dry w'
        (Spec.tthc_request [] 1000 1 :: (Spec.tthc_request [] 1000 <$> take k [2; 3]%Z)).
Proof.
  destruct (X5_empty_page_ends_the_crawl [] 1000 Samples.tthc_dry
              (Samples.tthc "1.000001" "a") [] 0 2 (Runtime.JRows [])
              eq_refl eq_refl eq_refl eq_refl)
    as (all & w' & k & Hrun & Hk & Hq & _).
  exists all, w', k. split; [exact Hrun|]. split; [exact Hk|exact Hq].
Defined.

(** ** Downloads *)

Section PathFacts.
Import JS Runtime.


End PathFacts.

Section EmohDownloads.
Import JS Runtime Spec Emoh.


End EmohDownloads.







(** ** fetch_details.js as a whole *)

Section FetchDetailsMore.
Import JS Runtime Spec FetchDetails Spec.
Variable extract : string → string → option string.
Variable rp_files : string → list (string * string).

(** The fields [parseDetailHTML] sets, one by one. *)
Lemma extracted_fields_lookup html (fs : list string) (d0 : row) k :
  foldl (λ d f, match extract f html with
                | Some v => <[f := SStr v]> d
                | None => d
                end) d0 fs !! k
  = if decide (k ∈ fs) then
      match extract k html with
      | Some v => Some (SStr v)
      | None => d0 !! k
      end
    else d0 !! k.
Proof.
  revert d0. induction fs as [|f fs IH]; intros d0; simpl; [done|].
  rewrite IH. destruct (decide (k = f)) as [->|Hne].
  - destruct (decide (f ∈ f :: fs)) as [_|Hn]; [|by destruct Hn; left].
    destruct (decide (f ∈ fs)); destruct (extract f html);
      rewrite ?lookup_insert_eq; done.
  - destruct (decide (k ∈ fs)) as [Hin|Hnin].
    + destruct (decide (k ∈ f :: fs)) as [_|Hn]; [|by destruct Hn; right].
      destruct (extract k html); [done|].
      destruct (extract f html); [by rewrite lookup_insert_ne|done].
    + destruct (decide (k ∈ f :: fs)) as [Hin|_];
        [apply elem_of_cons in Hin as [?|?]; done|].
      destruct (extract f html); [by rewrite lookup_insert_ne|done].
Qed.

Lemma parseDetailHTML_fields html pageId docId k :
  fields (parseDetailHTML extract rp_files html pageId docId) !! k =
    if decide (k ∈ detail_fields) then SStr <$> extract k html
    else if decide (k = "DETAIL_URL") then Some (SStr (detail_url pageId docId))
    else if decide (k = "DOC_ID") then docId
    else if decide (k = "PAGE_ID") then pageId
    else None.
Proof.
  unfold parseDetailHTML. cbn [fields]. rewrite extracted_fields_lookup.
  destruct (decide (k ∈ detail_fields)) as [Hin|Hnin].
  - destruct (extract k html); [done|]. simpl.
    assert (k ≠ "DETAIL_URL" ∧ k ≠ "DOC_ID" ∧ k ≠ "PAGE_ID") as (H1 & H2 & H3).
    { unfold detail_fields in Hin. rewrite !elem_of_cons in Hin.
      repeat split; intros ->; repeat (destruct Hin as [Hin|Hin]; [done|]);
        by apply elem_of_nil in Hin. }
    rewrite lookup_insert_ne, !set_field_lookup_ne by done. apply lookup_empty.
  - destruct (decide (k = "DETAIL_URL")) as [->|H1]; [apply lookup_insert_eq|].
    rewrite lookup_insert_ne by done.
    destruct (decide (k = "DOC_ID")) as [->|H2]; [apply set_field_lookup_eq|].
    rewrite set_field_lookup_ne by done.
    destruct (decide (k = "PAGE_ID")) as [->|H3]; [apply set_field_lookup_eq|].
    rewrite set_field_lookup_ne by done. apply lookup_empty.
Qed.

Lemma vanban_detail_failure doc o :
  is_Some (fields (vanban_detail extract rp_files doc o) !! "ERROR")
  ↔ ∃ err, o = Throw err.
Proof.
  destruct o as [html|err]; cbn [vanban_detail].
  - rewrite parseDetailHTML_fields.
    destruct (decide ("ERROR" ∈ detail_fields)) as [Hin|_].
    { unfold detail_fields in Hin. rewrite !elem_of_cons in Hin.
      repeat (destruct Hin as [Hin|Hin]; [done|]). by apply elem_of_nil in Hin. }
    rewrite !decide_False by done. split; [by intros [? [=]]|by intros [? [=]]].
  - split; [by eauto|]. intros _. unfold placeholder. cbn [fields].
    by rewrite lookup_insert_eq.
Qed.

(** One turn of phase 1 with its counters. *)
Lemma fetch_detail_counts doc acc s f w :
  ∃ w',
    fetch_detail extract rp_files doc (acc, s, f) w =
      (Return (Next,
               let o := vanban_page doc (response_at w 0 (vanban_request doc)) in
               (acc ++ [vanban_detail extract rp_files doc o],
                match o with Return _ => S s | Throw _ => s end,
                match o with Return _ => f | Throw _ => S f end)), w')
    ∧ issues w w' [vanban_request doc]
    ∧ disk w' = disk w.
Proof.
  unfold fetch_detail, try_catch, fetchHTML, send, response_at, vanban_request, vanban_page.
  rewrite !bind_run, Nat.add_0_r. simpl.
  destruct (net w (length (requests w)) _) as [msg|res]; simpl.
  - eexists. split; [done|]. split; [apply issues_logged, issues_sent|done].
  - destruct (status res =? 200)%Z; simpl.
    + eexists. split; [done|]. split; [apply issues_sent|done].
    + eexists. split; [done|]. split; [apply issues_logged, issues_sent|done].
Qed.

Lemma failures_app l1 l2 : failures (l1 ++ l2) = failures l1 ++ failures l2.
Proof. apply filter_app. Qed.

(** Phase 1: the counters count the entries, the failures being those
    that carry ERROR; the disk is not touched. *)
Lemma phase1_counts docs acc s f w :
  ∃ outs s' f' w',
    for_of docs (fetch_detail extract rp_files) (acc, s, f) w
      = (Return (acc ++ outs, s', f'), w')
    ∧ outs = vanban_details extract rp_files w 0 docs
    ∧ issues w w' (vanban_request <$> docs)
    ∧ disk w' = disk w
    ∧ (s' + f' = s + f + length docs)%nat
    ∧ (f' = f + length (failures outs))%nat.
Proof.
  revert acc s f w. induction docs as [|doc docs IH]; intros acc s f w.
  - exists [], s, f, w. simpl. rewrite app_nil_r. split; [done|]. split; [done|].
    split; [apply issues_refl|]. split; [done|]. split; lia.
  - rewrite for_of_cons.
    destruct (fetch_detail_counts doc acc s f w) as (w1 & -> & Hq1 & Hd1).
    cbn [fst snd]. cbv zeta.
    set (o := vanban_page doc (response_at w 0 (vanban_request doc))).
    destruct (IH (acc ++ [vanban_detail extract rp_files doc o])
                (match o with Return _ => S s | Throw _ => s end)
                (match o with Return _ => f | Throw _ => S f end) w1)
      as (outs & s' & f' & w' & -> & Houts & Hq & Hd & Hsum & Hfail).
    exists (vanban_detail extract rp_files doc o :: outs), s', f', w'.
    split; [by rewrite <-app_assoc|]. split.
    { simpl. fold o. f_equal. rewrite Houts.
      apply vanban_details_ext. intros k r. apply (issues_response_at _ _ _ _ _ Hq1). }
    split; [apply (issues_trans _ _ _ [_] _ Hq1 Hq)|]. split; [congruence|].
    change (vanban_detail extract rp_files doc o :: outs)
      with ([vanban_detail extract rp_files doc o] ++ outs).
    rewrite failures_app, length_app. unfold failures at 1.
    pose proof (vanban_detail_failure doc o) as Hiff.
    destruct o as [html|err].
    + rewrite filter_cons_False, filter_nil.
      2: { rewrite Hiff. by intros [? [=]]. }
      simpl in *. split; lia.
    + rewrite filter_cons_True, filter_nil by (apply Hiff; eauto).
      simpl in *. split; lia.
Qed.




End FetchDetailsMore.

Section FetchDetailsNames.
Import JS Runtime FetchDetails.

Lemma last_segment_no_slash (s : string) : has_slash (last_segment s) = false.
Proof.
  induction s as [|a s IH]; simpl; [done|].
  destruct (has_slash s) eqn:Hs; [done|].
  destruct (Ascii.eqb a "/") eqn:Ha; [done|]. simpl. by rewrite Ha, Hs.
Qed.
End FetchDetailsNames.

(** X9.  fetch_details.js without [--download], on the rows read from
    raw_result.json: [main] sends one detail request per document to
    process and no other request, and nothing under the attachments
    directory is created or changed.  It makes one entry per document;
    the counts of successes and failures add up to the number of
    documents, the failures are exactly the entries that carry ERROR,
    and both download counters stay at 0. *)
Theorem X9_details_only_run
    (args : list string) (extract : string → string → option string)
    (rp_files : string → list (string * string))
    (rawResults : list Runtime.row) (w : Runtime.world) :
  "--download" ∉ args →
  let docs := Spec.documentsToProcess args rawResults in
  ∃ s w',
    FetchDetails.main args extract rp_files rawResults w = (Runtime.Return s, w')
    ∧ Spec.issues w w' (Spec.vanban_request <$> docs)
    ∧ (∀ p, String.prefix FetchDetails.DOWNLOAD_BASE_DIR p = true →
            Runtime.disk w' !! p = Runtime.disk w !! p)
    ∧ length (FetchDetails.detailedResults s) = length docs
    ∧ (FetchDetails.successCount s + FetchDetails.failCount s = length docs)%nat
    ∧ FetchDetails.failCount s = length (Spec.failures (FetchDetails.detailedResults s))
    ∧ FetchDetails.downloadedCount s = 0%nat
    ∧ FetchDetails.failedCount s = 0%nat.
Proof.
  intros Hflag docs. unfold FetchDetails.main, FetchDetails.phase1.
  fold (Spec.documentsToProcess args rawResults). fold docs.
  rewrite bind_run.
  destruct (phase1_counts extract rp_files docs [] 0%nat 0%nat w)
    as (outs & s' & f' & w' & -> & Houts & Hq & Hdisk & Hsum & Hfail).
  unfold FetchDetails.shouldDownload. rewrite bool_decide_eq_false_2 by done.
  eexists _, w'. split; [done|]. simpl.
  split; [exact Hq|]. split; [by intros p _; rewrite Hdisk|].
  split; [by rewrite Houts, vanban_details_length|].
  split; [lia|]. split; [exact Hfail|done].
Qed.

(** X9, witness: the sample row, no flag, and the network down. *)
Lemma X9_details_only_run_witness :
  ∃ s w',
    FetchDetails.main [] (λ _ _, None) (λ _, []) [Samples.raw_doc] Samples.offline
      = (Runtime.Return s, w')
    ∧ Spec.issues Samples.offline w' [Spec.vanban_request Samples.raw_doc]
    ∧ (FetchDetails.successCount s + FetchDetails.failCount s = 1)%nat
    ∧ FetchDetails.failCount s = length (Spec.failures (FetchDetails.detailedResults s)).
Proof.
  destruct (X9_details_only_run [] (λ _ _, None) (λ _, []) [Samples.raw_doc] Samples.offline)
    as (s & w' & Hrun & Hq & _ & _ & Hsum & Hfail & _); [apply not_elem_of_nil|].
  exists s, w'. split; [exact Hrun|]. split; [exact Hq|].
  split; [exact Hsum|exact Hfail].
Defined.



(** X11.  [parseDetailHTML]: the entry always carries the PAGE_ID and
    DOC_ID it was given and the DETAIL_URL made of them, and never an
    ERROR; each of the eight detail fields is present exactly when its
    pattern matched.  There is one attachment per link found, in order,
    with the text of the link as label; its URL always starts with http
    (the link itself, or the link behind the datafiles host), and its
    file name is the label or holds no slash. *)
Theorem X11_parsed_detail
    (extract : string → string → option string)
    (rp_files : string → list (string * string))
    (html : string) (pageId docId : option JS.scalar) :
  let d := FetchDetails.parseDetailHTML extract rp_files html pageId docId in
  FetchDetails.fields d !! "PAGE_ID" = pageId
  ∧ FetchDetails.fields d !! "DOC_ID" = docId
  ∧ FetchDetails.fields d !! "DETAIL_URL"
      = Some (JS.SStr (FetchDetails.detail_url pageId docId))
  ∧ FetchDetails.fields d !! "ERROR" = None
  ∧ (∀ f, f ∈ FetchDetails.detail_fields →
       FetchDetails.fields d !! f = JS.SStr <$> extract f html)
  ∧ ∃ atts,
      FetchDetails.ATTACHMENTS d = Some atts
      ∧ Forall2 (λ (m : string * string) a,
                   String.prefix "http" (FetchDetails.url a) = true
                   ∧ (FetchDetails.url a = m.1
                      ∨ FetchDetails.url a = "https://datafiles.chinhphu.vn" +:+ m.1)
                   ∧ FetchDetails.label a = m.2
                   ∧ (FetchDetails.filename a = m.2
                      ∨ FetchDetails.has_slash (FetchDetails.filename a) = false))
          (rp_files html) atts.
Proof.
  intros d.
  assert (∀ k, k ∉ FetchDetails.detail_fields →
            FetchDetails.fields d !! k =
              if decide (k = "DETAIL_URL") then Some (JS.SStr (FetchDetails.detail_url pageId docId))
              else if decide (k = "DOC_ID") then docId
              else if decide (k = "PAGE_ID") then pageId
              else None) as Hother.
  { intros k Hk. unfold d. rewrite parseDetailHTML_fields. by rewrite decide_False. }
  assert (∀ k, k ∈ ["PAGE_ID"; "DOC_ID"; "DETAIL_URL"; "ERROR"] →
               k ∉ FetchDetails.detail_fields) as Hnot.
  { intros k Hk Hin. unfold FetchDetails.detail_fields in Hin.
    rewrite !elem_of_cons in Hk. rewrite !elem_of_cons in Hin.
    destruct Hk as [->|[->|[->|[->|Hk]]]]; [..|by apply elem_of_nil in Hk];
      repeat (destruct Hin as [Hin|Hin]; [done|]); by apply elem_of_nil in Hin. }
  split; [rewrite Hother by (apply Hnot; set_solver); done|].
  split; [rewrite Hother by (apply Hnot; set_solver); done|].
  split; [rewrite Hother by (apply Hnot; set_solver); done|].
  split; [rewrite Hother by (apply Hnot; set_solver); done|].
  split.
  - intros f Hf. unfold d. rewrite parseDetailHTML_fields. by rewrite decide_True.
  - eexists. split; [done|]. apply Forall2_fmap_r, Forall_Forall2_diag, Forall_forall.
    intros [href text] _. simpl. split; [|split; [|split; [done|]]].
    + destruct (String.prefix "http" href) eqn:Hp; done.
    + destruct (String.prefix "http" href); auto.
    + destruct (String.eqb (FetchDetails.last_segment href) ""); [by left|].
      right. apply last_segment_no_slash.
Qed.

(** ** decision_details.js beyond the claims *)

Section BatchFacts.
Import JS DecisionDetailCrawler.
Context {A : Type}.
Implicit Types (l : list A) (batchSize : positive).

Lemma batches_go_nil n batchSize : batches_go (A:=A) n batchSize [] = [].
Proof. by destruct n. Qed.

(** The [i]-th batch is [slice(i * batchSize, i * batchSize + batchSize)]. *)
Lemma batches_go_lookup n batchSize l (i : nat) b :
  (length l ≤ n)%nat →
  batches_go n batchSize l !! i = Some b →
  b = take (Pos.to_nat batchSize) (drop (i * Pos.to_nat batchSize) l)
  ∧ (i * Pos.to_nat batchSize < length l)%nat.
Proof.
  revert l i. induction n as [|n IH]; intros l i Hl.
  - by destruct l.
  - destruct l as [|x l]; [done|].
    change (batches_go (S n) batchSize (x :: l))
      with (take (Pos.to_nat batchSize) (x :: l)
              :: batches_go n batchSize (drop (Pos.to_nat batchSize) (x :: l))).
    destruct i as [|i]; simpl lookup.
    + intros [= <-]. split; [reflexivity|simpl; lia].
    + intros Hb. apply IH in Hb as [-> Hi].
      2: { rewrite length_drop. simpl in *. lia. }
      rewrite length_drop in Hi. rewrite drop_drop. split; [|simpl in *; lia].
      done.
Qed.

Lemma batches_go_length n batchSize l :
  (length l ≤ n)%nat →
  Z.of_nat (length (batches_go n batchSize l)) = ceil_div (Z.of_nat (length l)) batchSize.
Proof.
  revert l. induction n as [|n IH]; intros l Hl.
  - destruct l; [|simpl in Hl; lia]. simpl. symmetry. apply ceil_div_spec. lia.
  - destruct l as [|x l].
    { simpl. symmetry. apply ceil_div_spec. lia. }
    change (batches_go (S n) batchSize (x :: l))
      with (take (Pos.to_nat batchSize) (x :: l)
              :: batches_go n batchSize (drop (Pos.to_nat batchSize) (x :: l))).
    cbn [length]. rewrite Nat2Z.inj_succ, IH.
    2: { rewrite length_drop. simpl in *. lia. }
    rewrite length_drop. simpl length.
    destruct (decide (S (length l) ≤ Pos.to_nat batchSize)%nat).
    + replace (S (length l) - Pos.to_nat batchSize)%nat with 0%nat by lia.
      assert (ceil_div (Z.of_nat 0) batchSize = 0%Z) as -> by (apply ceil_div_spec; lia).
      symmetry. apply ceil_div_spec. lia.
    + pose proof (proj1 (ceil_div_spec
                    (Z.of_nat (S (length l) - Pos.to_nat batchSize)) batchSize _) eq_refl)
        as [Hlo Hhi].
      set (c := ceil_div _ _) in *.
      rewrite Nat2Z.inj_sub in Hlo, Hhi by lia.
      symmetry. apply ceil_div_spec. lia.
Qed.
End BatchFacts.

(** X12.  The batches of [crawlAllDetails]: put end to end they are the
    decisions to process; there are ceil(n / batchSize) of them; batch
    [i] is the slice from [i * batchSize] of length [batchSize], never
    empty, and full unless it is the last one. *)
Theorem X12_batches (batchSize : positive) (decisionsToProcess : list Runtime.row) :
  let bs := DecisionDetailCrawler.batches batchSize decisionsToProcess in
  let n := length decisionsToProcess in
  concat bs = decisionsToProcess
  ∧ Z.of_nat (length bs) = JS.ceil_div (Z.of_nat n) batchSize
  ∧ ∀ (i : nat) batch,
      bs !! i = Some batch →
      batch = take (Pos.to_nat batchSize) (drop (i * Pos.to_nat batchSize) decisionsToProcess)
      ∧ (1 ≤ length batch ≤ Pos.to_nat batchSize)%nat
      ∧ ((S i < length bs)%nat → length batch = Pos.to_nat batchSize).
Proof.
  intros bs n. split; [apply batches_concat|].
  split; [by apply batches_go_length|].
  intros i batch Hb.
  assert (Z.of_nat (length bs) = JS.ceil_div (Z.of_nat n) batchSize) as Hlen
    by (by apply batches_go_length).
  apply batches_go_lookup in Hb as [-> Hi]; [|done]. fold n in Hi.
  split; [done|]. rewrite length_take, length_drop. fold n. split; [lia|].
  intros Hnext.
  pose proof (proj1 (ceil_div_spec (Z.of_nat n) batchSize _) eq_refl) as [Hlo _].
  rewrite <-Hlen in Hlo. nia.
Qed.

Section PaginationFacts.
Import JS Runtime Spec DecisionDetailCrawler.
Variable extractAttachments : string → list row.

(** With an AMOUNT that is not a number the page count is NaN, the test
    [pageIndex >= totalPages] is false, and the loop asks for the next
    page for as long as pages with rows arrive. *)
Lemma fetchAllProcedures_from_unreadable service kind this id fuel p acc w :
  unreadable_amounts (recordsPerPage this) w →
  ∃ w',
    fetchAllProcedures_from fuel this (fetchProcedures service kind this id) p acc w
      = (Return None, w')
    ∧ issues w w' (procedures_request service this id <$> seqZ p (Z.of_nat fuel)).
Proof.
  intros Hw. revert p acc w Hw. induction fuel as [|fuel IH]; intros p acc w Hw.
  - exists w. split; [done|apply issues_refl].
  - cbn [fetchAllProcedures_from]. rewrite bind_run.
    unfold fetchProcedures at 1, try_catch, fetch, send, res_json. rewrite !bind_run.
    fold (procedures_request service this id p).
    destruct (Hw (length (requests w)) (procedures_request service this id p))
      as (res & r & rows & -> & Hparsed & Hpages).
    cbn [mret M_ret]. rewrite Hparsed. cbn [mret M_ret].
    unfold announced_pages in Hpages.
    destruct (Math_ceil_div _ _) as [|t] eqn:Hceil; [|done]. cbn [reached].
    destruct (IH (p + 1)%Z (acc ++ r :: rows) (sent (procedures_request service this id p) w))
      as (w' & -> & Hq); [done|].
    exists w'. split; [done|].
    rewrite Nat2Z.inj_succ, seqZ_cons by lia. rewrite fmap_cons.
    replace (Z.pred (Z.succ (Z.of_nat fuel))) with (Z.of_nat fuel) by lia.
    replace (Z.succ p) with (p + 1)%Z by lia.
    apply (issues_trans _ _ _ [_] _ (issues_sent _ _) Hq).
Qed.
End PaginationFacts.

(** X13.  [fetchAllProcedures] does not end while every page arrives
    with rows whose first one carries an AMOUNT that does not read as a
    number: however many turns the loop is given, it is still running
    after them, and it has requested the pages 1, 2, 3, ... one per
    turn. *)
Theorem X13_unreadable_amount_never_ends
    (service kind : string) (this : DecisionDetailCrawler.t)
    (decisionId : option JS.scalar) (w : Runtime.world) :
  Spec.unreadable_amounts (DecisionDetailCrawler.recordsPerPage this) w →
  ∀ fuel : nat,
    ∃ w',
      DecisionDetailCrawler.fetchAllProcedures fuel this
        (DecisionDetailCrawler.fetchProcedures service kind this decisionId) w
        = (Runtime.Return None, w')
      ∧ Spec.issues w w'
          (Spec.procedures_request service this decisionId <$> seqZ 1 (Z.of_nat fuel)).
Proof.
  intros Hw fuel. by apply fetchAllProcedures_from_unreadable.
Qed.

(** X13, witness: every page holds one procedure whose AMOUNT is "n/a";
    after four turns the loop is on its way to page 5. *)
Lemma X13_unreadable_amount_never_ends_witness :
  ∃ w',
    DecisionDetailCrawler.fetchAllProcedures 4 (DecisionDetailCrawler.new 50)
      (DecisionDetailCrawler.fetchNewProcedures (DecisionDetailCrawler.new 50)
         (Some (JS.SStr "115010"))) Samples.amounts_na
      = (Runtime.Return None, w')
    ∧ length (Runtime.requests w') = 4%nat.
Proof.
  destruct (X13_unreadable_amount_never_ends "get_procedures_by_dp_id_service_v2" "new"
              (DecisionDetailCrawler.new 50) (Some (JS.SStr "115010")) Samples.amounts_na)
    with (fuel := 4%nat) as (w' & Hrun & Hq).
  { intros i rq. eexists _, _, _. split; [reflexivity|]. split; reflexivity. }
  exists w'. split; [exact Hrun|]. destruct Hq as [_ ->]. reflexivity.
Defined.

Section UnreachableFacts.
Import JS Runtime Spec DecisionDetailCrawler.
Variable extractAttachments : string → list row.

Lemma unreachable_sent rq w : unreachable w → unreachable (sent rq w).
Proof. done. Qed.

Lemma unreachable_logged s w : unreachable w → unreachable (logged s w).
Proof. done. Qed.

Lemma fetchProcedures_unreachable service kind this id p w :
  unreachable w →
  ∃ w', fetchProcedures service kind this id p w = (Return (JRows []), w')
        ∧ issues w w' [procedures_request service this id p]
        ∧ unreachable w'.
Proof.
  intros Hw. unfold fetchProcedures, try_catch, fetch, send. rewrite !bind_run.
  fold (procedures_request service this id p).
  destruct (Hw (length (requests w)) (procedures_request service this id p)) as (msg & ->).
  eexists. split; [done|]. split; [apply issues_logged, issues_sent|done].
Qed.

Lemma fetchAllProcedures_unreachable service kind this id fuel w :
  unreachable w →
  ∃ w', fetchAllProcedures (S fuel) this (fetchProcedures service kind this id) w
          = (Return (Some []), w')
        ∧ issues w w' [procedures_request service this id 1]
        ∧ unreachable w'.
Proof.
  intros Hw. unfold fetchAllProcedures. cbn [fetchAllProcedures_from]. rewrite bind_run.
  destruct (fetchProcedures_unreachable service kind this id 1 w Hw) as (w' & -> & Hq & Hw').
  by exists w'.
Qed.

Lemma fetchDecisionDetails_unreachable fuel this decision w :
  unreachable w →
  let id := decision !! "ID" in
  ∃ w',
    fetchDecisionDetails extractAttachments (S fuel) this decision w =
      (Return (Some
         {| own := <["DETAIL_URL" := SStr (detail_page id)]>
                     (foldr delete decision nested_keys);
            extra := Some {| AGENCY_DETAILS :=
                               Map_get (agencyMap this) (decision !! "AGENCY_ID");
                             FIELDS := [];
                             ATTACHMENTS := [];
                             PROCEDURES_NEW := [];
                             PROCEDURES_MODIFIED := [];
                             PROCEDURES_RESCINDED := [] |} |}), w')
    ∧ issues w w'
        [ fields_request this id;
          procedures_request "get_procedures_by_dp_id_service_v2" this id 1;
          procedures_request "get_modified_procedures_by_dp_id_service_v2" this id 1;
          procedures_request "get_rescinded_procedures_by_dp_id_service_v2" this id 1;
          GET (detail_page id) ].
Proof.
  intros Hw id. unfold fetchDecisionDetails, try_catch. fold id. rewrite bind_run.
  (* the fields *)
  unfold fetchDecisionFields at 1, try_catch, fetch, send. rewrite !bind_run.
  fold (fields_request this id).
  destruct (Hw (length (requests w)) (fields_request this id)) as (msg & ->).
  cbn [throw console_error console_log mret M_ret]. rewrite !bind_run.
  cbn [throw console_error console_log mret M_ret].
  set (w1 := logged _ (sent (fields_request this id) w)).
  assert (unreachable w1) as Hw1 by done.
  assert (issues w w1 [fields_request this id]) as Hq1 by (apply issues_logged, issues_sent).
  (* the three listings *)
  unfold fetchNewProcedures, fetchModifiedProcedures, fetchRescindedProcedures.
  rewrite bind_run.
  destruct (fetchAllProcedures_unreachable "get_procedures_by_dp_id_service_v2" "new"
              this id fuel w1 Hw1) as (w2 & -> & Hq2 & Hw2).
  rewrite bind_run.
  destruct (fetchAllProcedures_unreachable "get_modified_procedures_by_dp_id_service_v2"
              "modified" this id fuel w2 Hw2) as (w3 & -> & Hq3 & Hw3).
  rewrite bind_run.
  destruct (fetchAllProcedures_unreachable "get_rescinded_procedures_by_dp_id_service_v2"
              "rescinded" this id fuel w3 Hw3) as (w4 & -> & Hq4 & Hw4).
  rewrite bind_run.
  (* the page *)
  unfold fetchDecisionHTMLDetails, try_catch, fetch, send. rewrite !bind_run.
  destruct (Hw4 (length (requests w4)) (GET (detail_page id))) as (msg' & ->).
  cbn [throw console_error console_log mret M_ret]. rewrite !bind_run.
  cbn [throw console_error console_log mret M_ret matchedFields map].
  eexists. split; [done|].
  apply (issues_trans _ _ _ [_] _ Hq1), (issues_trans _ _ _ [_] _ Hq2),
    (issues_trans _ _ _ [_] _ Hq3), (issues_trans _ _ _ [_] [_] Hq4).
  apply issues_logged, issues_sent.
Qed.
End UnreachableFacts.

(** X14.  [fetchDecisionDetails] with no request getting a response:
    each of the five fetchers swallows its failure, so the entry is not
    marked with ERROR (its ERROR is the one of the decision, if any); it
    has no fields and no attachments, all its statistics are 0, and
    exactly five requests were sent: the fields, the first page of each
    of the three procedure listings, the detail page. *)
Theorem X14_unreachable_source_leaves_no_error
    (extractAttachments : string → list Runtime.row) (fuel : nat)
    (this : DecisionDetailCrawler.t) (decision : Runtime.row) (w : Runtime.world) :
  Spec.unreachable w →
  (1 ≤ fuel)%nat →
  let id := decision !! "ID" in
  ∃ out w',
    DecisionDetailCrawler.fetchDecisionDetails extractAttachments fuel this decision w
      = (Runtime.Return (Some out), w')
    ∧ DecisionDetailCrawler.own out !! "ERROR" = decision !! "ERROR"
    ∧ (∃ e, DecisionDetailCrawler.extra out = Some e
            ∧ DecisionDetailCrawler.FIELDS e = []
            ∧ DecisionDetailCrawler.ATTACHMENTS e = []
            ∧ DecisionDetailCrawler.STATISTICS e = (0, 0, 0, 0, 0)%nat)
    ∧ Spec.issues w w'
        [ Spec.fields_request this id;
          Spec.procedures_request "get_procedures_by_dp_id_service_v2" this id 1;
          Spec.procedures_request "get_modified_procedures_by_dp_id_service_v2" this id 1;
          Spec.procedures_request "get_rescinded_procedures_by_dp_id_service_v2" this id 1;
          Runtime.GET (DecisionDetailCrawler.detail_page id) ].
Proof.
  intros Hw Hfuel id. destruct fuel as [|fuel]; [lia|].
  destruct (fetchDecisionDetails_unreachable extractAttachments fuel this decision w Hw)
    as (w' & Hrun & Hq).
  eexists _, w'. split; [exact Hrun|]. cbn [DecisionDetailCrawler.own DecisionDetailCrawler.extra].
  split.
  { unfold DecisionDetailCrawler.nested_keys. cbn [foldr].
    by rewrite lookup_insert_ne, !lookup_delete_ne. }
  split; [|exact Hq]. eexists. split; [done|]. done.
Qed.

(** X14, witness: the sample decision with the network down. *)
Lemma X14_unreachable_source_leaves_no_error_witness :
  ∃ out w',
    DecisionDetailCrawler.fetchDecisionDetails (λ _, []) 1 (DecisionDetailCrawler.new 50)
      Samples.decision Samples.offline = (Runtime.Return (Some out), w')
    ∧ DecisionDetailCrawler.own out !! "ERROR" = None
    ∧ length (Runtime.requests w') = 5%nat.
Proof.
  destruct (X14_unreachable_source_leaves_no_error (λ _, []) 1 (DecisionDetailCrawler.new 50)
              Samples.decision Samples.offline)
    as (out & w' & Hrun & Herr & _ & Hq); [by intros i rq; eexists|lia|].
  exists out, w'. split; [exact Hrun|]. split; [exact Herr|].
  destruct Hq as [_ ->]. reflexivity.
Defined.

Section MapGetFacts.
Import JS Runtime Spec DecisionDetailCrawler.
Context {V : Type}.
Implicit Types (m : list (option scalar * V)) (k : option scalar) (v : V).

Lemma Map_get_nil k : Map_get (V:=V) [] k = None.
Proof. done. Qed.

Lemma Map_get_cons k0 v0 m k :
  Map_get ((k0, v0) :: m) k = if decide (k0 = k) then Some v0 else Map_get m k.
Proof.
  unfold Map_get. simpl. destruct (decide (k0 = k)); [done|].
  by destruct (list_find _ m) as [[i [k' v']]|].
Qed.

(** Reading a [Map] after [set]. *)
Lemma Map_get_set m k v k' :
  Map_get (Map_set m k v) k' = if decide (k = k') then Some v else Map_get m k'.
Proof.
  induction m as [|[k0 v0] m IH]; simpl.
  - rewrite Map_get_cons. by destruct (decide (k = k')).
  - destruct (decide (k0 = k)) as [->|Hne]; rewrite !Map_get_cons.
    + by destruct (decide (k = k')).
    + rewrite IH. destruct (decide (k0 = k')) as [->|]; [|done].
      by rewrite decide_False by congruence.
Qed.
End MapGetFacts.

Section ReferenceFacts.
Import JS Runtime Spec DecisionDetailCrawler.

(** After [items.forEach(item => map.set(item.ID, item))] the map holds,
    under an ID, the last item with that ID, and what it held before
    under the IDs that do not occur. *)
Lemma set_all_lookup (m : list (option scalar * row)) (rows : list row) k :
  Map_get (foldl (λ m item, Map_set m (item !! "ID") item) m rows) k =
    match last_with_key ID k rows with
    | Some item => Some item
    | None => Map_get m k
    end.
Proof.
  induction rows as [|item rows IH] using rev_ind; [done|].
  rewrite foldl_app. simpl. rewrite Map_get_set, IH.
  unfold last_with_key, with_key. rewrite filter_app.
  destruct (decide (item !! "ID" = k)) as [Hk|Hk].
  - rewrite filter_cons_True by done. by rewrite filter_nil, last_snoc.
  - rewrite filter_cons_False by done. by rewrite filter_nil, app_nil_r.
Qed.
End ReferenceFacts.

(** X15.  [loadAgencies] with the agency table cached on disk as an
    array: no request is sent and nothing is written; afterwards the
    agency map gives, for an ID, the last agency of the file with that
    ID, and what it gave before for an ID the file does not list.  The
    field map and the entries collected are unchanged. *)
Theorem X15_cached_reference_table
    (JSON_parse : string → Runtime.parse) (this : DecisionDetailCrawler.t)
    (w : Runtime.world) (content : string) (agencies : list Runtime.row) :
  Runtime.disk w !! DecisionDetailCrawler.agencyPath = Some (Runtime.File content) →
  JSON_parse content = Runtime.Parsed (Runtime.JRows agencies) →
  ∃ this',
    DecisionDetailCrawler.loadAgencies JSON_parse this w = (Runtime.Return this', w)
    ∧ (∀ id,
         DecisionDetailCrawler.Map_get (DecisionDetailCrawler.agencyMap this') id =
           match Spec.last_with_key Spec.ID id agencies with
           | Some agency => Some agency
           | None => DecisionDetailCrawler.Map_get (DecisionDetailCrawler.agencyMap this) id
           end)
    ∧ DecisionDetailCrawler.fieldMap this' = DecisionDetailCrawler.fieldMap this
    ∧ DecisionDetailCrawler.detailedDecisions this'
        = DecisionDetailCrawler.detailedDecisions this.
Proof.
  intros Hfile Hparse.
  unfold DecisionDetailCrawler.loadAgencies, Runtime.existsSync. rewrite bind_run.
  rewrite Hfile. rewrite bool_decide_eq_true_2 by eauto.
  unfold DecisionDetailCrawler.read_json, Runtime.readFileSync. rewrite !bind_run.
  rewrite Hfile, Hparse. simpl.
  eexists. split; [done|]. simpl. split; [|done].
  intros id. apply set_all_lookup.
Qed.

(** X15, witness: the cache lists agency 7 twice; the map ends up with
    the second entry, and the network, which is down, is not asked. *)
Lemma X15_cached_reference_table_witness :
  let parse := λ _, Runtime.Parsed (Runtime.JRows [Samples.agency 7 "old"; Samples.agency 7 "new"]) in
  ∃ this',
    DecisionDetailCrawler.loadAgencies parse (DecisionDetailCrawler.new 50) Samples.agencies_cached
      = (Runtime.Return this', Samples.agencies_cached)
    ∧ DecisionDetailCrawler.Map_get (DecisionDetailCrawler.agencyMap this') (Some (JS.SNum 7))
        = Some (Samples.agency 7 "new").
Proof.
  intros parse.
  destruct (X15_cached_reference_table parse (DecisionDetailCrawler.new 50) Samples.agencies_cached
              "agencies" [Samples.agency 7 "old"; Samples.agency 7 "new"] eq_refl eq_refl)
    as (this' & Hrun & Hget & _).
  exists this'. split; [exact Hrun|]. rewrite Hget. reflexivity.
Defined.

(** X16.  [crawlAllDetails] does not survive a failure of its reference
    data.  Without a cached agency table, a failed request for it
    rejects the whole crawl with the cause after that single request; a
    cached agency table that does not parse rejects it before any
    request.  In both cases no decision is looked at. *)
Theorem X16_reference_failure_is_fatal
    (JSON_parse : string → Runtime.parse) (extractAttachments : string → list Runtime.row)
    (fuel : nat) (this : DecisionDetailCrawler.t) (decisions : list Runtime.row)
    (limit : option positive) (startIndex : nat) (batchSize : positive) :
  (∀ w cause,
     Runtime.disk w !! DecisionDetailCrawler.agencyPath = None →
     Spec.reference_page
       (Spec.response_at w 0 (Spec.reference_request "get_list_agency_service_v2" this))
       = Runtime.Throw cause →
     DecisionDetailCrawler.crawlAllDetails_full JSON_parse extractAttachments fuel this
       decisions limit startIndex batchSize w
       = (Runtime.Throw cause,
          Runtime.sent (Spec.reference_request "get_list_agency_service_v2" this) w))
  ∧ (∀ w content cause,
       Runtime.disk w !! DecisionDetailCrawler.agencyPath = Some (Runtime.File content) →
       JSON_parse content = Runtime.SyntaxError cause →
       DecisionDetailCrawler.crawlAllDetails_full JSON_parse extractAttachments fuel this
         decisions limit startIndex batchSize w
         = (Runtime.Throw cause, w)).
Proof.
  split.
  - intros w cause Hfile.
    unfold DecisionDetailCrawler.crawlAllDetails_full, DecisionDetailCrawler.loadAgencies.
    unfold Runtime.existsSync. rewrite !bind_run. rewrite Hfile.
    rewrite bool_decide_eq_false_2 by (by intros [? [=]]).
    unfold DecisionDetailCrawler.fetchAgencies, DecisionDetailCrawler.fetchReference.
    unfold Runtime.fetch, Runtime.send, Runtime.res_json. rewrite !bind_run.
    unfold Spec.reference_page, Spec.outcome, Spec.response_at, Spec.reference_request.
    rewrite Nat.add_0_r.
    destruct (Runtime.net w (length (Runtime.requests w)) _) as [msg|res]; simpl.
    + by intros [= ->].
    + destruct (Runtime.parsed res); simpl; [by intros [= ->]|done].
  - intros w content cause Hfile Hparse.
    unfold DecisionDetailCrawler.crawlAllDetails_full, DecisionDetailCrawler.loadAgencies.
    unfold Runtime.existsSync. rewrite !bind_run. rewrite Hfile.
    rewrite bool_decide_eq_true_2 by eauto.
    unfold DecisionDetailCrawler.read_json, Runtime.readFileSync. rewrite !bind_run.
    by rewrite Hfile, Hparse.
Qed.

(** X16, witness: no cache and the network down; the sample decision is
    never asked about. *)
Lemma X16_reference_failure_is_fatal_witness :
  DecisionDetailCrawler.crawlAllDetails_full (λ _, Runtime.SyntaxError "") (λ _, []) 1
    (DecisionDetailCrawler.new 50) [Samples.decision] None 0 5 Samples.offline
  = (Runtime.Throw "ECONNRESET",
     Runtime.sent (Spec.reference_request "get_list_agency_service_v2"
                     (DecisionDetailCrawler.new 50)) Samples.offline).
Proof.
  destruct (X16_reference_failure_is_fatal (λ _, Runtime.SyntaxError "") (λ _, []) 1
              (DecisionDetailCrawler.new 50) [Samples.decision] None 0 5) as (Hnet & _).
  apply (Hnet Samples.offline "ECONNRESET"); reflexivity.
Defined.

(** ** Writing the decisions *)

Section CSVFacts.
Import JS Runtime Spec DecisionCrawler.










Section Cells.
Variable inherited : string → option string.


End Cells.
End CSVFacts.

Section DecisionOutputFacts.
Import JS Runtime Spec DecisionCrawler.





End DecisionOutputFacts.





(** ** decision_details.js: what it writes *)

Section DisklessFacts.
Import JS Runtime Spec DecisionDetailCrawler.











Variable extractAttachments : string → list row.







End DisklessFacts.

Section SavingFacts.
Import JS Runtime Spec DecisionDetailCrawler.
Variable extractAttachments : string → list row.
Variable JSON_parse : string → parse.
Variable JSON_stringify : list detailed → string.

Lemma same_elsewhere_refl d : same_elsewhere d d.
Proof. done. Qed.








End SavingFacts.




